(** * Flagman distribution bot: the allocation and assignment engine

    A shallow embedding of [FlagmanDistributor] (src/main.py) and the
    properties of its three methods [distribute_personnel],
    [get_equipment_assignments] and [generate_report].

    Python values are modelled as follows.
    - [int] is [Z] (unbounded).
    - [float] is IEEE 754 binary64, through the executable specification
      [SpecFloat] of the standard library at precision 53 and [emax] 1024.
    - [dict] is an association list in insertion order: Python's dicts keep
      it, and the engine relies on it ([keys()[:-1]], the order of [items()]).
    - [str] is [string] (bytes; the dash of the report is UTF-8).
    - Exceptions, the global random generator and the wall clock are the
      effects of a small monad [py]; [while] loops take fuel. *)

From Stdlib Require Import ZArith List String Ascii Bool Lia Permutation.
From Stdlib Require Import SpecFloat DecimalString Decimal DecimalZ DecimalPos.
From Stdlib Require Import Reals Lra.
Import ListNotations.

Local Open Scope string_scope.
Local Open Scope list_scope.
Local Open Scope Z_scope.

(** ** Effects *)

Inductive exn : Type :=
| KeyError (key : string)
| IndexError
| ZeroDivisionError
| OverflowError
| ValueError.

Inductive outcome (A : Type) : Type :=
| Ret (a : A)
| Raise (e : exn)
| OutOfFuel.

Arguments Ret {A} a.
Arguments Raise {A} e.
Arguments OutOfFuel {A}.

(** The part of the process state the engine can observe: the draws that
    the module [random] will deliver, and what
    [datetime.now().strftime("%d-%m-%Y")] answers. *)
Record world : Type := { rng : list nat; clock : string }.

Definition py (A : Type) : Type := world -> outcome (A * world).

Definition ret {A} (a : A) : py A := fun w => Ret (a, w).

Definition raise {A} (e : exn) : py A := fun _ => Raise e.

Definition bind {A B} (m : py A) (k : A -> py B) : py B :=
  fun w =>
    match m w with
    | Ret (a, w') => k a w'
    | Raise e => Raise e
    | OutOfFuel => OutOfFuel
    end.

Declare Scope py_scope.
Delimit Scope py_scope with py.
Notation "x <- m ;; k" := (bind m (fun x => k))
  (at level 61, m at next level, right associativity) : py_scope.
Notation "' p <- m ;; k" := (bind m (fun x => match x with p => k end))
  (at level 61, p pattern, m at next level, right associativity) : py_scope.
Local Open Scope py_scope.

(** [for x in l: s = body(x, s)] *)
Fixpoint for_each {A S} (l : list A) (body : A -> S -> py S) (s : S) : py S :=
  match l with
  | [] => ret s
  | x :: l' => s' <- body x s ;; for_each l' body s'
  end.

(** [[f(x) for x in l]] *)
Fixpoint map_py {A B} (f : A -> py B) (l : list A) : py (list B) :=
  match l with
  | [] => ret []
  | x :: l' => y <- f x ;; ys <- map_py f l' ;; ret (y :: ys)
  end.

(** ** Python built-ins *)

(** *** dict *)

Definition dict (V : Type) : Type := list (string * V).

Fixpoint dict_get {V} (d : dict V) (k : string) : option V :=
  match d with
  | [] => None
  | (k', v) :: d' => if String.eqb k' k then Some v else dict_get d' k
  end.

(** [d[k]] *)
Definition dict_getitem {V} (d : dict V) (k : string) : py V :=
  match dict_get d k with
  | Some v => ret v
  | None => raise (KeyError k)
  end.

(** [d.get(k, default)] *)
Definition dict_get_default {V} (d : dict V) (k : string) (default : V) : V :=
  match dict_get d k with
  | Some v => v
  | None => default
  end.

(** [d[k] = v]: an existing key keeps its place, a new one goes last. *)
Fixpoint dict_setitem {V} (d : dict V) (k : string) (v : V) : dict V :=
  match d with
  | [] => [(k, v)]
  | (k', v') :: d' =>
      if String.eqb k' k then (k', v) :: d' else (k', v') :: dict_setitem d' k v
  end.

Definition keys {V} (d : dict V) : list string := map fst d.
Definition values {V} (d : dict V) : list V := map snd d.
Definition items {V} (d : dict V) : list (string * V) := d.

(** [sum(l)] *)
Definition sum (l : list Z) : Z := fold_left Z.add l 0.

(** [range(n)] *)
Definition range (n : Z) : list Z := map Z.of_nat (seq 0 (Z.to_nat n)).

(** [l[i]] for [0 <= i] *)
Definition list_getitem {A} (l : list A) (i : Z) : py A :=
  match nth_error l (Z.to_nat i) with
  | Some x => ret x
  | None => raise IndexError
  end.

(** [i % n] on ints *)
Definition int_mod (i n : Z) : py Z :=
  if n =? 0 then raise ZeroDivisionError else ret (i mod n).

(** [str(z)] *)
Definition str (z : Z) : string := NilZero.string_of_int (Z.to_int z).

(** [sep.join(l)] *)
Fixpoint join (sep : string) (l : list string) : string :=
  match l with
  | [] => EmptyString
  | [s] => s
  | s :: l' => (s ++ sep ++ join sep l')%string
  end.

(** *** sorted

    [sorted(l, key=..., reverse=...)] is stable in both directions: elements
    with equal keys keep the order they had in [l]. *)

Fixpoint insert_keyed {A} (reverse : bool) (x : Z * A) (l : list (Z * A))
  : list (Z * A) :=
  match l with
  | [] => [x]
  | y :: l' =>
      if (if reverse then fst x <? fst y else fst y <? fst x)
      then y :: insert_keyed reverse x l'
      else x :: l
  end.

Definition sort_keyed {A} (reverse : bool) (l : list (Z * A)) : list (Z * A) :=
  fold_right (insert_keyed reverse) [] l.

Definition sorted {A} (l : list A) (key : A -> py Z) (reverse : bool)
  : py (list A) :=
  ks <- map_py (fun x => k <- key x ;; ret (k, x)) l ;;
  ret (map snd (sort_keyed reverse ks)).

(** *** float *)

Definition float : Type := spec_float.

Definition prec : Z := 53.
Definition emax : Z := 1024.

(** An int as mantissa with exponent 0, whatever its size. *)
Definition raw_float (z : Z) : float :=
  match z with
  | Z0 => S754_zero false
  | Zpos p => S754_finite false p 0
  | Zneg p => S754_finite true p 0
  end.

(** [a / b] on ints: the quotient correctly rounded to a double. *)
Definition int_truediv (a b : Z) : py float :=
  if b =? 0 then raise ZeroDivisionError
  else match SFdiv prec emax (raw_float a) (raw_float b) with
       | S754_infinity _ => raise OverflowError
       | q => ret q
       end.

(** [float(z)], the conversion applied to an int operand of a float
    operation: to nearest, ties to even; too large an int is an error. *)
Definition float_of_int (z : Z) : py float :=
  match binary_normalize prec emax z 0 false with
  | S754_infinity _ => raise OverflowError
  | f => ret f
  end.

(** [x * z] for a float [x] and an int [z] *)
Definition float_mul_int (x : float) (z : Z) : py float :=
  y <- float_of_int z ;; ret (SFmul prec emax x y).

(** [int(x)]: truncation towards zero *)
Definition int_of_float (x : float) : py Z :=
  match x with
  | S754_zero _ => ret 0
  | S754_finite s m e =>
      let a := match e with
               | Zneg p => Z.shiftr (Zpos m) (Zpos p)
               | _ => Z.shiftl (Zpos m) e
               end in
      ret (if s then - a else a)
  | S754_infinity _ => raise OverflowError
  | S754_nan => raise ValueError
  end.

(** *** random and datetime *)

(** A draw below [n] consumes one number of the tape. *)
Definition randbelow (n : nat) : py nat :=
  fun w =>
    match rng w with
    | [] => Ret (0%nat, w)
    | r :: t => Ret ((r mod n)%nat, {| rng := t; clock := clock w |})
    end.

Fixpoint remove_nth {A} (i : nat) (l : list A) : list A :=
  match l, i with
  | [], _ => []
  | _ :: l', O => l'
  | x :: l', S i' => x :: remove_nth i' l'
  end.

(** [random.shuffle(l)] belongs to Python's library: it is modelled as drawing
    the elements one after the other among those left. The outcomes are the
    permutations of [l], all of them ([random_shuffle_spec],
    [random_shuffle_any]). *)
Fixpoint shuffle_from {A} (n : nat) (l : list A) : py (list A) :=
  match n with
  | O => ret []
  | S n' =>
      j <- randbelow (List.length l) ;;
      match nth_error l j with
      | Some x => rest <- shuffle_from n' (remove_nth j l) ;; ret (x :: rest)
      | None => ret []
      end
  end.

Definition random_shuffle {A} (l : list A) : py (list A) :=
  shuffle_from (List.length l) l.

(** [datetime.now().strftime("%d-%m-%Y")] *)
Definition datetime_now_strftime : py string := fun w => Ret (clock w, w).

(** ** class FlagmanDistributor *)

Record FlagmanDistributor : Type := {
  equipment_pools : dict (list string);
  area_priorities : dict Z
}.

(** [FlagmanDistributor.__init__] *)
Definition FlagmanDistributor_init : FlagmanDistributor := {|
  equipment_pools := [
    ("GIS + MB", ["Cocklain"; "Bobcut"; "JCB"; "Compactor"; "Excavator"; "Hydra";
                  "Mini Roller"; "Trailer"; "Tough Rider"; "Roller"; "DCM"]);
    ("Chiller Area", ["JCB"; "Roller"; "Compactor"; "Tough Rider"; "Bobcut"; "DCM";
                      "Excavator"; "Hydra"; "Mini Roller"]);
    ("SSD", ["Hydra"; "JCB"; "Cocklain"; "Unicrane"; "Excavator"; "Main Lift";
             "Compactor"]);
    ("Gate", ["Trailer"; "Tough Rider"; "Excavator"; "Roller"; "JCB"; "Hydra";
              "Compactor"]);
    ("NCC Office", ["Hydra"; "Main Lift"; "Bobcut"; "Compactor"; "JCB"; "Cocklain";
                    "Roller"]);
    ("Store", ["Assigned"]);
    ("Supervisors", ["General Area"])
  ];
  area_priorities := [
    ("GIS + MB", 8);
    ("Chiller Area", 6);
    ("SSD", 5);
    ("Gate", 4);
    ("NCC Office", 4);
    ("Store", 2);
    ("Supervisors", 1)
  ]
|}.

(** The module-level instance [distributor = FlagmanDistributor()]. *)
Definition distributor : FlagmanDistributor := FlagmanDistributor_init.

(** *** distribute_personnel *)

(** [max(1, int((priority / total_priority) * (total_personnel - 1)))] *)
Definition base_count (priority total_priority total_personnel : Z) : py Z :=
  q <- int_truediv priority total_priority ;;
  x <- float_mul_int q (total_personnel - 1) ;;
  t <- int_of_float x ;;
  ret (Z.max 1 t).

(** The body of the first [for]; the state is [(distribution, allocated)]. *)
Definition first_pass_body (total_priority total_personnel : Z)
    (item : string * Z) (st : dict Z * Z) : py (dict Z * Z) :=
  let '(area, priority) := item in
  let '(distribution, allocated) := st in
  if String.eqb area "Supervisors" then ret st
  else
    count <- base_count priority total_priority total_personnel ;;
    ret (dict_setitem distribution area count, allocated + count).

Definition first_pass (self : FlagmanDistributor) (total_personnel : Z)
  : py (dict Z * Z) :=
  let total_priority := sum (values (area_priorities self)) in
  for_each (items (area_priorities self))
           (first_pass_body total_priority total_personnel) ([], 0).

(** [sorted(areas, key=lambda x: self.area_priorities[x], reverse=...)] *)
Definition by_priority (self : FlagmanDistributor) (areas : list string)
    (reverse : bool) : py (list string) :=
  sorted areas (fun x => dict_getitem (area_priorities self) x) reverse.

(** The [for] of the surplus loop; the state is [(distribution, remaining)]. *)
Definition surplus_body (area : string) (st : dict Z * Z) : py (dict Z * Z) :=
  let '(distribution, remaining) := st in
  if 0 <? remaining then
    c <- dict_getitem distribution area ;;
    ret (dict_setitem distribution area (c + 1), remaining - 1)
  else ret st.

(** [while remaining > 0: ...] *)
Fixpoint surplus_loop (fuel : nat) (self : FlagmanDistributor)
    (areas : list string) (st : dict Z * Z) : py (dict Z * Z) :=
  if 0 <? snd st then
    match fuel with
    | O => fun _ => OutOfFuel
    | S fuel' =>
        order <- by_priority self areas true ;;
        st' <- for_each order surplus_body st ;;
        surplus_loop fuel' self areas st'
    end
  else ret st.

(** The [for] of the over-allocation loop. *)
Definition deficit_body (area : string) (st : dict Z * Z) : py (dict Z * Z) :=
  let '(distribution, remaining) := st in
  c <- dict_getitem distribution area ;;
  if (1 <? c) && (remaining <? 0) then
    c' <- dict_getitem distribution area ;;
    ret (dict_setitem distribution area (c' - 1), remaining + 1)
  else ret st.

(** [while remaining < 0: ...] *)
Fixpoint deficit_loop (fuel : nat) (self : FlagmanDistributor)
    (areas : list string) (st : dict Z * Z) : py (dict Z * Z) :=
  if snd st <? 0 then
    match fuel with
    | O => fun _ => OutOfFuel
    | S fuel' =>
        order <- by_priority self areas false ;;
        st' <- for_each order deficit_body st ;;
        deficit_loop fuel' self areas st'
    end
  else ret st.

(** Lines 44 to 69: the state in which the over-allocation loop is reached. *)
Definition allocate_and_top_up (fuel : nat) (self : FlagmanDistributor)
    (total_personnel : Z) : py (list string * (dict Z * Z)) :=
  '(distribution, allocated) <- first_pass self total_personnel ;;
  let distribution := dict_setitem distribution "Supervisors" 1 in
  let allocated := allocated + 1 in
  let remaining := total_personnel - allocated in
  let areas := removelast (keys (area_priorities self)) in
  st <- surplus_loop fuel self areas (distribution, remaining) ;;
  ret (areas, st).

(** The result is [None] (Python's [None]) or [Some distribution]. *)
Definition distribute_personnel (fuel : nat) (self : FlagmanDistributor)
    (total_personnel : Z) : py (option (dict Z)) :=
  if total_personnel <? 7 then ret None
  else
    '(areas, st) <- allocate_and_top_up fuel self total_personnel ;;
    '(distribution, _) <- deficit_loop fuel self areas st ;;
    ret (Some distribution).

(** *** get_equipment_assignments *)

(** The body of [for i in range(count)]. *)
Definition tally_body (equipment_list : list string) (i : Z)
    (equipment_counts : dict Z) : py (dict Z) :=
  idx <- int_mod i (Z.of_nat (List.length equipment_list)) ;;
  equipment <- list_getitem equipment_list idx ;;
  ret (dict_setitem equipment_counts equipment
         (dict_get_default equipment_counts equipment 0 + 1)).

(** One entry of the result. *)
Definition format_assignment (entry : string * Z) : string :=
  let '(equipment, eq_count) := entry in
  if 1 <? eq_count then (equipment ++ " x" ++ str eq_count)%string else equipment.

Definition get_equipment_assignments (self : FlagmanDistributor)
    (area : string) (count : Z) : py (list string) :=
  if String.eqb area "Supervisors" then ret ["General Area"]
  else
    equipment_list <- dict_getitem (equipment_pools self) area ;;
    if String.eqb area "Store" then
      ret [if 1 <? count then ("Assigned x" ++ str count)%string else "Assigned"]
    else
      equipment_list <- random_shuffle equipment_list ;;
      equipment_counts <- for_each (range count) (tally_body equipment_list) [] ;;
      ret (map format_assignment (items equipment_counts)).

(** *** generate_report *)

Definition nl : string := String (ascii_of_nat 10) EmptyString.

(** [not distribution]: [None] and the empty dict are false. *)
Definition falsy (distribution : option (dict Z)) : bool :=
  match distribution with
  | None => true
  | Some [] => true
  | Some (_ :: _) => false
  end.

Definition report_line (self : FlagmanDistributor) (distribution : dict Z)
    (area : string) (report : string) : py string :=
  count <- dict_getitem distribution area ;;
  assignments <- get_equipment_assignments self area count ;;
  let assignments_str := join ", " assignments in
  ret (report ++ "*" ++ area ++ " (" ++ str count ++ ")* – " ++ assignments_str
         ++ nl)%string.

Definition generate_report (fuel : nat) (self : FlagmanDistributor)
    (total_personnel : Z) : py string :=
  distribution <- distribute_personnel fuel self total_personnel ;;
  if falsy distribution then
    ret " Minimum 7 personnel required for distribution."
  else
    let distribution := match distribution with Some d => d | None => [] end in
    current_date <- datetime_now_strftime ;;
    let report := ("*Flagman Distribution Report*" ++ nl)%string in
    let report := (report ++ "*Date :- " ++ current_date ++ "*" ++ nl ++ nl)%string in
    supervisors <- dict_getitem distribution "Supervisors" ;;
    let flagmen_count := total_personnel - supervisors in
    report <- for_each ["GIS + MB"; "Chiller Area"; "SSD"; "Gate"; "NCC Office";
                        "Store"; "Supervisors"]
                       (report_line self distribution) report ;;
    supervisors <- dict_getitem distribution "Supervisors" ;;
    ret (report ++ nl ++ "*Total Personnel: " ++ str total_personnel ++ " ("
           ++ str flagmen_count ++ " Flagmen + " ++ str supervisors
           ++ " Supervisors)*")%string.

(** ** The transport: report_command

    The handler of [/report]. Its reply is the text it passes to
    [update.message.reply_text], once on every path. [int(context.args[0])]
    is Python's parser of integer literals, taken as a parameter: [None] stands
    for [ValueError]. [except Exception] catches what the engine raises, not
    a loop that does not end. *)

Definition usage_message : string :=
  (" Please provide personnel count." ++ nl ++ nl
   ++ "*Usage:* `/report <number>`" ++ nl ++ "*Example:* `/report 30`")%string.

Definition invalid_number_message : string :=
  (" Please provide a valid number." ++ nl ++ nl ++ "*Example:* `/report 30`")%string.

Definition too_low_message : string := " Personnel count must be at least 1.".

Definition too_high_message : string :=
  " Personnel count seems too high. Maximum allowed: 200.".

Definition error_message : string :=
  " An error occurred while generating the report. Please try again.".

Definition report_command (int_of_str : string -> option Z) (fuel : nat)
    (args : list string) (w : world) : outcome string :=
  match args with
  | [] => Ret usage_message
  | arg :: _ =>
      match int_of_str arg with
      | None => Ret invalid_number_message
      | Some personnel_count =>
          if personnel_count <? 1 then Ret too_low_message
          else if 200 <? personnel_count then Ret too_high_message
          else
            match generate_report fuel distributor personnel_count w with
            | Ret (report, _) => Ret report
            | Raise _ => Ret error_message
            | OutOfFuel => OutOfFuel
            end
      end
  end.

(** ** Notions used to state the properties *)

(** *** Worlds *)

(** An outcome, with the world put back to [w]. *)
Definition attach {A} (o : outcome (A * world)) (w : world) : outcome (A * world) :=
  match o with
  | Ret (a, _) => Ret (a, w)
  | Raise e => Raise e
  | OutOfFuel => OutOfFuel
  end.

(** [m] neither reads the world nor changes it. *)
Definition pure_py {A} (m : py A) : Prop :=
  forall w w', m w = attach (m w') w.

(** The outcome without the world. *)
Definition result {A} (o : outcome (A * world)) : outcome A :=
  match o with
  | Ret (a, _) => Ret a
  | Raise e => Raise e
  | OutOfFuel => OutOfFuel
  end.

(** A world to run examples in. *)
Definition sample_world : world :=
  {| rng := [3; 1; 4; 1; 5; 9; 2; 6]%nat; clock := "03-11-2026" |}.

(** *** The configured tables *)

(** The areas, in the order of the priority table. *)
Definition all_areas : list string :=
  ["GIS + MB"; "Chiller Area"; "SSD"; "Gate"; "NCC Office"; "Store"; "Supervisors"].

(** The areas the reconciliation works on. *)
Definition flagman_areas : list string := removelast all_areas.

(** Every name of the equipment catalog. *)
Definition equipment_names : list string :=
  List.concat (values (equipment_pools distributor)).

(** The message of [generate_report] below the minimum. *)
Definition apology : string := " Minimum 7 personnel required for distribution.".

(** *** The first pass *)



(** The share by weight, the weights summed over all the areas of the table. *)
Definition share_base_count (self : FlagmanDistributor) (priority total : Z) : Z :=
  Z.max 1 (priority * (total - 1) / sum (values (area_priorities self))).

(** What the first pass delivers: a count of at least one for each flagman
    area, their sum, and room left for the supervisor. *)
Definition first_pass_post (total : Z) (st : dict Z * Z) : Prop :=
  keys (fst st) = flagman_areas /\
  sum (values (fst st)) = snd st /\
  (forall k v, dict_get (fst st) k = Some v -> 1 <= v) /\
  0 <= snd st /\ snd st + 1 <= total.

Fixpoint forallb2 {A B} (f : A -> B -> bool) (l : list A) (l' : list B) : bool :=
  match l, l' with
  | [], [] => true
  | x :: l, y :: l' => f x y && forallb2 f l l'
  | _, _ => false
  end.

(** [first_pass_post], as a check that can be run. *)
Definition first_pass_check (total : Z) : bool :=
  match first_pass distributor total sample_world with
  | Ret ((d, a), _) =>
      forallb2 String.eqb (keys d) flagman_areas
      && (sum (values d) =? a)
      && forallb (fun v => 1 <=? v) (values d)
      && (0 <=? a) && (a + 1 <=? total)
  | _ => false
  end.

(** Every flagman area got [share_base_count] in the first pass: a check
    that can be run. *)
Definition base_counts_check (total : Z) : bool :=
  match first_pass distributor total sample_world with
  | Ret ((d, _), _) =>
      forallb (fun item =>
                 String.eqb (fst item) "Supervisors"
                 || match dict_get d (fst item) with
                    | Some c => c =? share_base_count distributor (snd item) total
                    | None => false
                    end)
              (items (area_priorities distributor))
  | _ => false
  end.

(** *** Reconciliation *)

(** What a step of a reconciliation loop may do to a state
    [(distribution, remaining)]: the keys stay, what is added to the counts is
    taken from [remaining], no count goes down and [skip] keeps its count. *)
Definition tops_up (skip : string) (st st' : dict Z * Z) : Prop :=
  keys (fst st') = keys (fst st) /\
  sum (values (fst st')) + snd st' = sum (values (fst st)) + snd st /\
  0 <= snd st' <= snd st /\
  (forall k v, dict_get (fst st) k = Some v ->
               exists v', dict_get (fst st') k = Some v' /\ v <= v') /\
  dict_get (fst st') skip = dict_get (fst st) skip.

(** What a distribution for [total] is. *)
Definition distribution_post (total : Z) (d : dict Z) : Prop :=
  keys d = all_areas /\
  sum (values d) = total /\
  dict_get d "Supervisors" = Some 1 /\
  (forall k v, dict_get d k = Some v -> 1 <= v).

(** *** Equipment assignments *)

(** The decimal number a string spells. *)
Definition parse_count (s : string) : option Z :=
  option_map Z.of_int (NilZero.int_of_string s).

(** The number of workers an entry stands for: the [k] of its suffix
    [" x<k>"], or one when it has none. *)
Fixpoint label_multiplicity (label : string) : Z :=
  match label with
  | EmptyString => 1
  | String c tail =>
      if Ascii.eqb c " " then
        match tail with
        | EmptyString => 1
        | String c' rest =>
            if Ascii.eqb c' "x" then
              match parse_count rest with
              | Some k => k
              | None => label_multiplicity tail
              end
            else label_multiplicity tail
        end
      else label_multiplicity tail
  end.

(** The sum of the occurrence counts of a result. *)
Definition occurrences (assignments : list string) : Z :=
  sum (map label_multiplicity assignments).

(** The tally holds names of [equipment_list] with positive counts. *)
Definition tally_inv (equipment_list : list string) (d : dict Z) : Prop :=
  forall k v, In (k, v) d -> In k equipment_list /\ 1 <= v.

(** *** Binary64 rounding *)

Definition bit (b : bool) : Z := if b then 1 else 0.

(** [j] right shifts of an exact mantissa. *)
Definition shr_exact (m : Z) (j : nat) : shr_record :=
  Nat.iter j shr_1 (Build_shr_record m false false).

(** The float of a rounded mantissa and exponent: finite, or too large. *)
Definition pack (s : bool) (m : positive) (e : Z) : spec_float :=
  if e <=? 971 then S754_finite s m e else S754_infinity s.

Definition bpow (e : Z) : R := powerRZ 2 e.

(** The real number a mantissa and an exponent stand for. *)
Definition F2R (m e : Z) : R := (IZR m * bpow e)%R.

(** The unit roundoff. *)
Definition u : R := bpow (-53).

(** The least positive int that [float_of_int] refuses: half an ulp above
    the largest double. *)
Definition float_int_limit : Z := 2 ^ 1024 - 2 ^ 970.

(** For each weight of the table, a bound in thousandths on weight / 30. *)
Definition weight_bounds : list (Z * Z) :=
  [(8, 267); (6, 201); (5, 167); (4, 134); (2, 67)].

(** *** The report *)

(** The two lines that open a report made on the date [date]. *)
Definition report_header (date : string) : string :=
  ("*Flagman Distribution Report*" ++ nl ++ "*Date :- " ++ date ++ "*" ++ nl ++ nl)%string.

(** The line of an area. *)
Definition render_line (row : string * Z * list string) : string :=
  let '(area, count, assignments) := row in
  ("*" ++ area ++ " (" ++ str count ++ ")* – " ++ join ", " assignments ++ nl)%string.

Fixpoint concat_lines (lines : list string) : string :=
  match lines with
  | [] => EmptyString
  | line :: rest => (line ++ concat_lines rest)%string
  end.

(** The line that closes the report of [total] workers, one of them the
    supervisor. *)
Definition report_summary (total : Z) : string :=
  (nl ++ "*Total Personnel: " ++ str total ++ " (" ++ str (total - 1)
   ++ " Flagmen + " ++ str 1 ++ " Supervisors)*")%string.

(** *** The tally of a pool

    Worker [i] takes the equipment at [i mod len]: after [n] workers the
    equipment at [j] is held by [n / len] of them, and by one more when
    [j < n mod len]. *)
Definition held (len n j : nat) : Z :=
  Z.of_nat (n / len) + (if (j <? n mod len)%nat then 1 else 0).

Definition expected_tally (equipment_list : list string) (n : nat) : dict Z :=
  map (fun j => (nth j equipment_list EmptyString, held (List.length equipment_list) n j))
      (seq 0 (Nat.min n (List.length equipment_list))).

(** *** Reconciliation, both ways *)

(** The count of [area], 1 for an area without one. *)
Definition count_of (d : dict Z) (area : string) : Z := dict_get_default d area 1.

(** What the over-allocation loop can still take from [areas]. *)
Definition slack (areas : list string) (d : dict Z) : Z :=
  sum (map (fun a => count_of d a - 1) areas).

(** The flagman areas from the highest priority down, as the surplus sweep
    visits them. *)
Definition descending : list string :=
  ["GIS + MB"; "Chiller Area"; "SSD"; "Gate"; "NCC Office"; "Store"].

(** What a surplus of [r] gives to the area at position [j] of [descending]. *)
Definition gain (r : Z) (j : nat) : Z :=
  r / 6 + (if Z.of_nat j <? r mod 6 then 1 else 0).

(** *** The distribution in closed form *)

(** The weight of [area] in the configured table. *)
Definition priority_of (area : string) : Z :=
  dict_get_default (area_priorities distributor) area 0.

(** What the first pass leaves to hand out, were every base count the share
    by weight. *)
Definition surplus (total : Z) : Z :=
  total - 1
  - sum (map (fun area => share_base_count distributor (priority_of area) total)
             descending).

Fixpoint shares_from (total : Z) (j : nat) (areas : list string) : dict Z :=
  match areas with
  | [] => []
  | area :: rest =>
      (area, share_base_count distributor (priority_of area) total + gain (surplus total) j)
        :: shares_from total (S j) rest
  end.

(** The distribution in closed form: the share by weight, the surplus dealt
    in rounds from the highest priority down, one supervisor. *)
Definition expected_distribution (total : Z) : dict Z :=
  shares_from total 0 descending ++ [("Supervisors", 1)].

(** *** Any priority table *)

(** What the reconciliation keeps, whatever the table: the counts and
    [remaining] add up to [total], no count is under 1, the areas it works
    on have a count, and the supervisors keep theirs when they are not among
    these areas. *)
Definition balanced (total : Z) (areas : list string) (st : dict Z * Z) : Prop :=
  sum (values (fst st)) + snd st = total /\
  Forall (fun c => 1 <= c) (values (fst st)) /\
  (forall a, In a areas -> In a (keys (fst st))) /\
  (~ In "Supervisors" areas -> dict_get (fst st) "Supervisors" = Some 1).

(** * Properties *)

(** ** Binary64 rounding of a positive exact value *)

Lemma digits2_pos_size p : digits2_pos p = Pos.size p.
Proof. induction p; simpl; congruence. Qed.

Lemma Zdigits2_bounds m :
  0 < m -> 2 ^ (Zdigits2 m - 1) <= m < 2 ^ Zdigits2 m.
Proof.
  destruct m as [|p|p]; try lia. intros _.
  change (Zdigits2 (Z.pos p)) with (Z.pos (digits2_pos p)).
  rewrite digits2_pos_size.
  pose proof (Pos2Z.pos_le_pos _ _ (Pos.size_le p)) as Hle.
  pose proof (Pos2Z.pos_lt_pos _ _ (Pos.size_gt p)) as Hgt.
  rewrite Pos2Z.inj_pow in Hle, Hgt. rewrite (Pos2Z.inj_xO p) in Hle.
  change (Z.pos 2) with 2 in *.
  assert (Hs : 0 < Z.pos (Pos.size p)) by reflexivity.
  revert Hle Hgt Hs. generalize (Z.pos (Pos.size p)). intros s Hle Hgt Hs.
  split; [|exact Hgt].
  replace s with (Z.succ (s - 1)) in Hle by lia.
  rewrite Z.pow_succ_r in Hle by lia. lia.
Qed.

Lemma Zdigits2_unique m d :
  2 ^ (d - 1) <= m < 2 ^ d -> 0 < d -> Zdigits2 m = d.
Proof.
  intros [Hlo Hhi] Hd.
  assert (0 < m) by (pose proof (Z.pow_pos_nonneg 2 (d - 1)); lia).
  pose proof (Zdigits2_bounds m H) as [Hlo' Hhi'].
  assert (0 < Zdigits2 m) by (destruct m; simpl in *; lia).
  destruct (Z.lt_trichotomy (Zdigits2 m) d) as [Hlt | [Heq | Hgt]]; auto.
  - assert (2 ^ Zdigits2 m <= 2 ^ (d - 1)) by (apply Z.pow_le_mono_r; lia). lia.
  - assert (2 ^ d <= 2 ^ (Zdigits2 m - 1)) by (apply Z.pow_le_mono_r; lia). lia.
Qed.

Lemma iter_pos_nat {A} (f : A -> A) p x :
  SpecFloat.iter_pos f p x = Nat.iter (Pos.to_nat p) f x.
Proof.
  revert x. induction p as [p IH | p IH |]; intros x; cbn [SpecFloat.iter_pos].
  - rewrite !IH, Pos2Nat.inj_xI.
    replace (S (2 * Pos.to_nat p)) with (Pos.to_nat p + S (Pos.to_nat p))%nat by lia.
    rewrite Nat.iter_add, Nat.iter_succ_r. reflexivity.
  - rewrite !IH, Pos2Nat.inj_xO.
    replace (2 * Pos.to_nat p)%nat with (Pos.to_nat p + Pos.to_nat p)%nat by lia.
    rewrite Nat.iter_add. reflexivity.
  - reflexivity.
Qed.

Lemma shr_1_spec r :
  0 <= shr_m r ->
  shr_m r = 2 * shr_m (shr_1 r) + bit (shr_r (shr_1 r)) /\ 0 <= shr_m (shr_1 r).
Proof.
  destruct r as [m r s]. simpl. intros Hm.
  destruct m as [|[p|p|]|p]; simpl; lia.
Qed.

Lemma shr_iter_spec m j :
  0 <= m ->
  0 <= shr_m (shr_exact m j) /\
  shr_m (shr_exact m j) * 2 ^ Z.of_nat j <= m /\
  m < (shr_m (shr_exact m j) + 1) * 2 ^ Z.of_nat j /\
  2 * shr_m (shr_exact m j) * 2 ^ Z.of_nat j
    + bit (shr_r (shr_exact m j)) * 2 ^ Z.of_nat j <= 2 * m /\
  2 * m < 2 * shr_m (shr_exact m j) * 2 ^ Z.of_nat j
            + (bit (shr_r (shr_exact m j)) + 1) * 2 ^ Z.of_nat j.
Proof.
  intros Hm. induction j as [|j IH].
  - cbn. lia.
  - destruct IH as (H0 & Hlo & Hhi & Hr & Hr').
    change (shr_exact m (S j)) with (shr_1 (shr_exact m j)).
    destruct (shr_1_spec (shr_exact m j) H0) as [Heq Hnn].
    rewrite Nat2Z.inj_succ, Z.pow_succ_r by lia.
    assert (0 < 2 ^ Z.of_nat j) by (apply Z.pow_pos_nonneg; lia).
    assert (0 <= bit (shr_r (shr_1 (shr_exact m j))) <= 1)
      by (destruct (shr_r (shr_1 (shr_exact m j))); simpl; lia).
    assert (0 <= bit (shr_r (shr_exact m j)) <= 1)
      by (destruct (shr_r (shr_exact m j)); simpl; lia).
    repeat split; try lia; nia.
Qed.

Lemma round_nearest_even_up r :
  shr_r r = true -> Z.even (shr_m r) = false ->
  round_nearest_even (shr_m r) (loc_of_shr_record r) = shr_m r + 1.
Proof.
  destruct r as [m [|] [|]]; simpl; try discriminate; [reflexivity|].
  intros _ ->. reflexivity.
Qed.

Lemma round_nearest_even_bounds r :
  shr_m r <= round_nearest_even (shr_m r) (loc_of_shr_record r) <= shr_m r + bit (shr_r r).
Proof.
  destruct r as [m [|] [|]]; simpl; try lia.
  destruct (Z.even m); lia.
Qed.

Lemma shr_pos r e k :
  0 < k -> shr r e k = (Nat.iter (Z.to_nat k) shr_1 r, e + k).
Proof.
  destruct k as [|p|p]; try lia. intros _. unfold shr.
  rewrite iter_pos_nat. reflexivity.
Qed.

Lemma shr_nonpos r e k : k <= 0 -> shr r e k = (r, e).
Proof. destruct k as [|p|p]; try lia; reflexivity. Qed.

Lemma fexp_normal e : -1074 <= e - 53 -> fexp prec emax e = e - 53.
Proof. unfold fexp, emin, prec, emax. lia. Qed.

Lemma round_aux_short s mx ex :
  0 < mx -> Zdigits2 mx <= 53 -> -1074 <= Zdigits2 mx + ex - 53 ->
  binary_round_aux prec emax s mx ex loc_Exact = pack s (Z.to_pos mx) ex.
Proof.
  intros Hpos Hd Hn. unfold binary_round_aux, shr_fexp.
  rewrite fexp_normal by exact Hn.
  rewrite shr_nonpos by lia. cbn [shr_record_of_loc shr_m loc_of_shr_record round_nearest_even].
  rewrite fexp_normal by exact Hn.
  rewrite shr_nonpos by lia. cbn [shr_record_of_loc shr_m].
  destruct mx as [|p|p]; try lia. reflexivity.
Qed.

Lemma round_aux_long s mx ex :
  0 < mx -> 53 < Zdigits2 mx -> -1074 <= Zdigits2 mx + ex - 53 ->
  exists m' e',
    binary_round_aux prec emax s mx ex loc_Exact = pack s m' e' /\
    2 ^ 52 <= Z.pos m' < 2 ^ 53 /\
    (e' = ex + Zdigits2 mx - 53 \/
     e' = ex + Zdigits2 mx - 52 /\ 2 * 2 ^ Zdigits2 mx <= 2 * mx + 2 ^ (Zdigits2 mx - 53)) /\
    (2 * 2 ^ Zdigits2 mx <= 2 * mx + 2 ^ (Zdigits2 mx - 53) ->
     e' = ex + Zdigits2 mx - 52) /\
    2 * Z.pos m' * 2 ^ (e' - ex) <= 2 * mx + 2 ^ (Zdigits2 mx - 53).
Proof.
  intros Hpos Hd Hn.
  pose proof (Zdigits2_bounds mx Hpos) as [Hlo Hhi].
  set (d := Zdigits2 mx) in *. set (k := d - 53).
  assert (Hk : 0 < k) by (unfold k; lia).
  unfold binary_round_aux, shr_fexp. fold d.
  rewrite fexp_normal by exact Hn.
  replace (d + ex - 53 - ex) with k by (unfold k; lia).
  rewrite shr_pos by exact Hk. cbn [shr_record_of_loc].
  fold (shr_exact mx (Z.to_nat k)).
  destruct (shr_iter_spec mx (Z.to_nat k) (Z.lt_le_incl _ _ Hpos))
    as (Hq0 & Hqlo & Hqhi & Hqr & Hqr').
  rewrite Z2Nat.id in Hqlo, Hqhi, Hqr, Hqr' by lia.
  pose proof (round_nearest_even_up (shr_exact mx (Z.to_nat k))) as Hup.
  pose proof (round_nearest_even_bounds (shr_exact mx (Z.to_nat k))) as [Hm1lo Hm1hi].
  set (r1 := shr_exact mx (Z.to_nat k)) in *.
  set (m1 := round_nearest_even (shr_m r1) (loc_of_shr_record r1)) in *.
  assert (Hpk : 0 < 2 ^ k) by (apply Z.pow_pos_nonneg; lia).
  assert (Hd52 : 2 ^ (d - 1) = 2 ^ 52 * 2 ^ k)
    by (rewrite <- Z.pow_add_r by lia; f_equal; unfold k; lia).
  assert (Hd53 : 2 ^ d = 2 ^ 53 * 2 ^ k)
    by (rewrite <- Z.pow_add_r by lia; f_equal; unfold k; lia).
  fold k.
  assert (Hb : 0 <= bit (shr_r r1) <= 1) by (destruct (shr_r r1); simpl; lia).
  assert (Hq : 2 ^ 52 <= shr_m r1 < 2 ^ 53) by (split; nia).
  assert (Hm1 : 2 * m1 * 2 ^ k <= 2 * mx + 2 ^ k) by nia.
  destruct (Z.eq_dec m1 (2 ^ 53)) as [Hcarry | Hnocarry].
  - (* the rounding carried into the next binade *)
    rewrite Hcarry.
    replace (Zdigits2 (2 ^ 53)) with 54 by reflexivity.
    rewrite fexp_normal by lia.
    replace (54 + (ex + k) - 53 - (ex + k)) with 1 by lia.
    exists (Z.to_pos (2 ^ 52)), (ex + k + 1). split; [reflexivity|].
    split; [rewrite Z2Pos.id by reflexivity; lia|].
    split; [|split].
    + right. split; [unfold k; lia|]. rewrite Hd53. lia.
    + intros _. unfold k. lia.
    + rewrite Z2Pos.id by reflexivity.
      replace (ex + k + 1 - ex) with (Z.succ k) by lia.
      rewrite Z.pow_succ_r by lia. change (2 ^ 53) with (2 * 2 ^ 52) in Hcarry. nia.
  - assert (Hm1r : 2 ^ 52 <= m1 < 2 ^ 53) by lia.
    rewrite (Zdigits2_unique m1 53) by (change (53 - 1) with 52; lia).
    rewrite fexp_normal by lia.
    rewrite shr_nonpos by lia. cbn [shr_record_of_loc shr_m].
    destruct m1 as [|p|p]; try lia.
    exists p, (ex + k). split; [reflexivity|].
    split; [lia|]. split; [left; unfold k; lia|]. split.
    + (* so close to the next power of two that the rounding must carry *)
      intros Hnear. exfalso. rewrite Hd53 in Hnear.
      assert (Hqmax : shr_m r1 = 2 ^ 53 - 1) by nia.
      assert (Hbit : shr_r r1 = true).
      { destruct (shr_r r1); [reflexivity|]. cbn [bit] in Hqr'. nia. }
      rewrite Hup in Hm1r; [lia | exact Hbit | rewrite Hqmax; reflexivity].
    + replace (ex + k - ex) with k by lia. lia.
Qed.

Lemma bpow_pos e : (0 < bpow e)%R.
Proof. apply powerRZ_lt. lra. Qed.

Lemma bpow_add a b : bpow (a + b) = (bpow a * bpow b)%R.
Proof. apply powerRZ_add. lra. Qed.

Lemma bpow_IZR e : 0 <= e -> bpow e = IZR (2 ^ e).
Proof.
  intros He. unfold bpow. rewrite <- (Z2Nat.id e He) at 1.
  rewrite <- pow_powerRZ, pow_IZR, Z2Nat.id by exact He. reflexivity.
Qed.

(** Scaling an integer inequality at exponent [e' - ex >= 0] down to [ex]. *)
Lemma F2R_le_scaled m' e' mx ex c :
  ex <= e' ->
  m' * 2 ^ (e' - ex) * 2 ^ 53 <= mx * (2 ^ 53 + c) ->
  (F2R m' e' <= F2R mx ex * (1 + IZR c * u))%R.
Proof.
  intros He H. unfold F2R, u.
  replace e' with ((e' - ex) + ex) at 1 by lia.
  rewrite bpow_add, (bpow_IZR (e' - ex)) by lia.
  apply IZR_le in H. rewrite !mult_IZR, plus_IZR in H.
  pose proof (bpow_pos ex) as Hex.
  assert (H53 : (bpow (-53) * IZR (2 ^ 53) = 1)%R).
  { rewrite <- (bpow_IZR 53) by lia. rewrite <- bpow_add. reflexivity. }
  set (a := IZR (2 ^ (e' - ex))) in *. set (p := IZR (2 ^ 53)) in *.
  set (v := bpow (-53)) in *. set (b := bpow ex) in *.
  assert (Hv : (0 < v)%R) by apply bpow_pos.
  assert (Hle : (IZR m' * a * (v * p) <= IZR mx * (v * p + IZR c * v))%R).
  { replace (IZR m' * a * (v * p))%R with (v * (IZR m' * a * p))%R by ring.
    replace (IZR mx * (v * p + IZR c * v))%R with (v * (IZR mx * (p + IZR c)))%R by ring.
    apply Rmult_le_compat_l; lra. }
  rewrite H53 in Hle.
  replace (IZR m' * (a * b))%R with (b * (IZR m' * a * 1))%R by ring.
  replace (IZR mx * b * (1 + IZR c * v))%R with (b * (IZR mx * (1 + IZR c * v)))%R by ring.
  apply Rmult_le_compat_l; lra.
Qed.

Lemma F2R_exact n e : e <= 0 -> F2R (n * 2 ^ (- e)) e = IZR n.
Proof.
  intros He. unfold F2R. rewrite mult_IZR, <- (bpow_IZR (- e)) by lia.
  rewrite Rmult_assoc, <- bpow_add. replace (- e + e) with 0 by lia.
  unfold bpow. simpl. ring.
Qed.

Lemma u_pos : (0 < u)%R.
Proof. apply bpow_pos. Qed.

(** ** The float operations of [base_count] *)

Lemma shl_align_spec mx ex ex' :
  shl_align mx ex ex' =
    if ex' <? ex then (Z.to_pos (Z.pos mx * 2 ^ (ex - ex')), ex') else (mx, ex).
Proof.
  unfold shl_align. destruct (Z.ltb_spec ex' ex) as [Hlt | Hge].
  - destruct (ex' - ex) as [|d|d] eqn:Hd; try lia.
    replace (ex - ex') with (Z.pos d) by lia.
    f_equal. change (Pos.iter xO mx d) with (shift_pos d mx).
    apply Pos2Z.inj. rewrite shift_pos_correct, Z2Pos.id.
    + rewrite Z.pow_pos_fold. lia.
    + apply Z.mul_pos_pos; [lia | apply Z.pow_pos_nonneg; lia].
  - destruct (ex' - ex) as [|d|d] eqn:Hd; try lia; reflexivity.
Qed.

Lemma below_float_int_limit n :
  0 < n < float_int_limit ->
  Zdigits2 n <= 1024 /\
  (Zdigits2 n = 1024 -> 2 * n + 2 ^ (Zdigits2 n - 53) < 2 * 2 ^ Zdigits2 n).
Proof.
  unfold float_int_limit. intros [Hpos Hlim].
  pose proof (Zdigits2_bounds n Hpos) as [Hlo Hhi].
  assert (H970 : 0 < 2 ^ 970) by reflexivity.
  assert (H971 : 2 ^ (1024 - 53) = 2 * 2 ^ 970) by reflexivity.
  split.
  - destruct (Z_le_gt_dec (Zdigits2 n) 1024) as [|Hgt]; [assumption|].
    assert (2 ^ 1024 <= 2 ^ (Zdigits2 n - 1)) by (apply Z.pow_le_mono_r; lia).
    revert Hlim H970 H Hlo. generalize (2 ^ 1024) (2 ^ 970) (2 ^ (Zdigits2 n - 1)).
    intros; lia.
  - intros ->. rewrite H971.
    revert Hlim H970. generalize (2 ^ 1024) (2 ^ 970). intros; lia.
Qed.

Lemma float_of_int_pos n w :
  0 < n < float_int_limit ->
  exists m e,
    float_of_int n w = Ret (S754_finite false m e, w) /\
    2 ^ 52 <= Z.pos m < 2 ^ 53 /\
    -52 <= e <= 971 /\
    (F2R (Z.pos m) e <= IZR n * (1 + u))%R.
Proof.
  intros Hn. destruct (below_float_int_limit n Hn) as [Hd2 Hnc].
  destruct Hn as [Hpos _].
  pose proof (Zdigits2_bounds n Hpos) as [Hlo Hhi].
  assert (Hd1 : 0 < Zdigits2 n) by (destruct n; simpl in *; lia).
  destruct n as [|p|p]; try lia.
  unfold float_of_int, binary_normalize, binary_round.
  change (Z.pos (digits2_pos p)) with (Zdigits2 (Z.pos p)).
  set (d := Zdigits2 (Z.pos p)) in *.
  assert (Hn : -1074 <= d - 53) by (clear - Hd1; lia).
  rewrite Z.add_0_r, fexp_normal, shl_align_spec by exact Hn.
  destruct (Z.ltb_spec (d - 53) 0) as [Hshort | Hlong].
  - (* below 2^53: exact *)
    clear Hnc.
    replace (0 - (d - 53)) with (53 - d) by lia.
    assert (Hk : 0 < 2 ^ (53 - d)) by (apply Z.pow_pos_nonneg; lia).
    assert (E52 : 2 ^ 52 = 2 ^ (d - 1) * 2 ^ (53 - d))
      by (rewrite <- Z.pow_add_r by lia; f_equal; lia).
    assert (E53 : 2 ^ 53 = 2 ^ d * 2 ^ (53 - d))
      by (rewrite <- Z.pow_add_r by lia; f_equal; lia).
    assert (Hm : 2 ^ 52 <= Z.pos p * 2 ^ (53 - d) < 2 ^ 53)
      by (rewrite E52, E53; split; nia).
    clear E52 E53.
    set (mz := Z.pos p * 2 ^ (53 - d)) in *.
    rewrite round_aux_short; rewrite ?Z2Pos.id by lia;
      rewrite ?(Zdigits2_unique mz 53) by (change (53 - 1) with 52; lia); try lia.
    exists (Z.to_pos mz), (d - 53). unfold pack.
    destruct (Z.leb_spec (d - 53) 971); [|lia].
    rewrite Z2Pos.id by lia. repeat split; try lia.
    unfold mz. replace (53 - d) with (- (d - 53)) by lia.
    rewrite F2R_exact by lia. pose proof u_pos.
    assert (0 < IZR (Z.pos p))%R by (apply IZR_lt; lia). nra.
  - (* from 2^53 on: rounded *)
    destruct (Z.eq_dec d 53) as [Heq | Hne].
    + rewrite round_aux_short by lia. exists p, 0. unfold pack.
      change (0 <=? 971) with true. cbv iota.
      repeat split; try lia.
      * rewrite Heq in Hlo. exact Hlo.
      * rewrite Heq in Hhi. exact Hhi.
      * unfold F2R, bpow. simpl. pose proof u_pos.
        assert (0 < IZR (Z.pos p))%R by (apply IZR_lt; lia). nra.
    + destruct (round_aux_long false (Z.pos p) 0) as (m' & e' & Hr & Hm' & He' & _ & Hv);
        try lia; fold d; try lia.
      fold d in He', Hv. rewrite Hr. exists m', e'.
      assert (Hp53 : 0 < 2 ^ (d - 53)) by (apply Z.pow_pos_nonneg; lia).
      assert (He971 : e' <= 971).
      { destruct He' as [-> | [-> Hc]]; [lia|].
        destruct (Z.eq_dec d 1024) as [Hd | Hd]; [|lia].
        specialize (Hnc Hd). lia. }
      unfold pack. destruct (Z.leb_spec e' 971); [|lia].
      repeat split; try lia.
      replace (IZR (Z.pos p) * (1 + u))%R with (F2R (Z.pos p) 0 * (1 + IZR 1 * u))%R
        by (unfold F2R, bpow; simpl; ring).
      apply F2R_le_scaled; [lia|].
      assert (Hd52 : 2 ^ (d - 1) = 2 ^ (d - 53) * 2 ^ 52)
        by (rewrite <- Z.pow_add_r by lia; f_equal; lia).
      rewrite Z.sub_0_r in *.
      assert (0 < 2 ^ e') by (apply Z.pow_pos_nonneg; lia).
      nia.
Qed.

Lemma at_float_int_limit n :
  float_int_limit <= n ->
  0 < n /\ 1024 <= Zdigits2 n /\
  (Zdigits2 n = 1024 -> 2 * 2 ^ Zdigits2 n <= 2 * n + 2 ^ (Zdigits2 n - 53)).
Proof.
  unfold float_int_limit. intros Hlim.
  assert (H970 : 0 < 2 ^ 970) by reflexivity.
  assert (H971 : 2 ^ (1024 - 53) = 2 * 2 ^ 970) by reflexivity.
  assert (H1023 : 2 ^ 1023 <= 2 ^ 1024 - 2 ^ 970) by (apply Z.leb_le; reflexivity).
  assert (Hpos : 0 < n).
  { assert (0 < 2 ^ 1023) by reflexivity.
    revert Hlim H1023 H. generalize (2 ^ 1024 - 2 ^ 970) (2 ^ 1023). intros; lia. }
  pose proof (Zdigits2_bounds n Hpos) as [Hlo Hhi].
  split; [exact Hpos|]. split.
  - destruct (Z_le_gt_dec 1024 (Zdigits2 n)) as [|Hlt]; [assumption|].
    assert (2 ^ Zdigits2 n <= 2 ^ 1023).
    { apply Z.pow_le_mono_r; [lia|]. clear - Hlt. lia. }
    revert Hlim H1023 H Hhi. generalize (2 ^ 1024 - 2 ^ 970) (2 ^ 1023) (2 ^ Zdigits2 n).
    intros; lia.
  - intros ->. rewrite H971.
    revert Hlim H970. generalize (2 ^ 1024) (2 ^ 970). intros; lia.
Qed.

(** From [float_int_limit] on, an int is too large for a float. *)
Lemma float_of_int_overflow n w :
  float_int_limit <= n -> float_of_int n w = Raise OverflowError.
Proof.
  intros Hn. destruct (at_float_int_limit n Hn) as (Hpos & Hd & Hnear).
  destruct n as [|p|p]; try (clear - Hpos; lia).
  unfold float_of_int, binary_normalize, binary_round.
  change (Z.pos (digits2_pos p)) with (Zdigits2 (Z.pos p)).
  set (d := Zdigits2 (Z.pos p)) in *.
  assert (Hnorm : -1074 <= d - 53) by (clear - Hd; lia).
  rewrite Z.add_0_r, fexp_normal, shl_align_spec by exact Hnorm.
  destruct (Z.ltb_spec (d - 53) 0) as [Hshort | _]; [clear - Hd Hshort; lia|].
  destruct (round_aux_long false (Z.pos p) 0) as (m' & e' & Hr & _ & He' & Hc & _);
    try (fold d; clear - Hd; lia).
  fold d in He', Hc. rewrite Hr. unfold pack.
  assert (Hbig : 971 < e').
  { destruct (Z.eq_dec d 1024) as [Heq | Hne].
    - rewrite (Hc (Hnear Heq)). clear - Heq. lia.
    - clear - He' Hne Hd. lia. }
  destruct (Z.leb_spec e' 971); [clear - H Hbig; lia | reflexivity].
Qed.

Lemma SFmul_bound mw ew m e :
  2 ^ 52 <= Z.pos mw < 2 ^ 53 -> -60 <= ew <= -54 ->
  2 ^ 52 <= Z.pos m < 2 ^ 53 -> -52 <= e <= 971 ->
  exists m' e',
    SFmul prec emax (S754_finite false mw ew) (S754_finite false m e)
      = S754_finite false m' e' /\
    (F2R (Z.pos m') e' <= F2R (Z.pos mw) ew * F2R (Z.pos m) e * (1 + u))%R.
Proof.
  intros Hmw Hew Hm He. cbn [SFmul xorb].
  rewrite Pos2Z.inj_mul.
  set (mx := Z.pos mw * Z.pos m).
  assert (Hmx : 2 ^ 104 <= mx < 2 ^ 106).
  { change (2 ^ 104) with (2 ^ 52 * 2 ^ 52). change (2 ^ 106) with (2 ^ 53 * 2 ^ 53).
    unfold mx. split; nia. }
  assert (Hpos : 0 < mx) by (unfold mx; lia).
  pose proof (Zdigits2_bounds mx Hpos) as [Hlo Hhi].
  assert (Hd : 104 < Zdigits2 mx <= 106).
  { split.
    - destruct (Z_lt_le_dec 104 (Zdigits2 mx)) as [|Hle]; [assumption|].
      assert (2 ^ Zdigits2 mx <= 2 ^ 104).
      { apply Z.pow_le_mono_r; [lia|exact Hle]. }
      lia.
    - destruct (Z_le_gt_dec (Zdigits2 mx) 106) as [|Hgt]; [assumption|].
      assert (2 ^ 106 <= 2 ^ (Zdigits2 mx - 1)) by (apply Z.pow_le_mono_r; lia).
      lia. }
  destruct (round_aux_long false mx (ew + e)) as (m' & e' & Hr & Hm' & He' & _ & Hv);
    try lia.
  rewrite Hr. exists m', e'. unfold pack.
  destruct (Z.leb_spec e' 971) as [_ | Hbig]; [|lia].
  split; [reflexivity|].
  replace (F2R (Z.pos mw) ew * F2R (Z.pos m) e)%R with (F2R mx (ew + e))
    by (unfold F2R, mx; rewrite mult_IZR, bpow_add; ring).
  replace (1 + u)%R with (1 + IZR 1 * u)%R by ring.
  apply F2R_le_scaled; [lia|].
  set (d := Zdigits2 mx) in *.
  assert (Hd52 : 2 ^ (d - 1) = 2 ^ (d - 53) * 2 ^ 52)
    by (rewrite <- Z.pow_add_r by lia; f_equal; lia).
  assert (0 < 2 ^ (d - 53)) by (apply Z.pow_pos_nonneg; lia).
  assert (0 < 2 ^ (e' - (ew + e))) by (apply Z.pow_pos_nonneg; lia).
  nia.
Qed.

Lemma int_of_float_bound m e w :
  exists t, int_of_float (S754_finite false m e) w = Ret (t, w) /\
            0 <= t /\ (IZR t <= F2R (Z.pos m) e)%R.
Proof.
  unfold int_of_float, ret, F2R. destruct e as [|p|p]; eexists; (split; [reflexivity|]).
  - rewrite Z.shiftl_mul_pow2, Z.pow_0_r, Z.mul_1_r by lia.
    unfold bpow. cbn [powerRZ]. split; [lia|lra].
  - rewrite Z.shiftl_mul_pow2 by lia. split.
    + apply Z.mul_nonneg_nonneg; [lia | apply Z.pow_nonneg; lia].
    + rewrite mult_IZR, <- bpow_IZR by lia. lra.
  - rewrite Z.shiftr_div_pow2 by lia.
    assert (Hp : 0 < 2 ^ Z.pos p) by (apply Z.pow_pos_nonneg; lia).
    split; [apply Z.div_pos; lia|].
    pose proof (Z.mul_div_le (Z.pos m) (2 ^ Z.pos p) Hp) as Hle.
    apply IZR_le in Hle. rewrite mult_IZR, <- bpow_IZR in Hle by lia.
    pose proof (bpow_pos (Z.neg p)) as Hn.
    assert (Hone : (bpow (Z.neg p) * bpow (Z.pos p) = 1)%R).
    { rewrite <- bpow_add. replace (Z.neg p + Z.pos p) with 0 by lia. reflexivity. }
    set (t := IZR (Z.pos m / 2 ^ Z.pos p)) in *.
    replace t with (bpow (Z.neg p) * bpow (Z.pos p) * t)%R by (rewrite Hone; ring).
    replace (IZR (Z.pos m) * bpow (Z.neg p))%R with (bpow (Z.neg p) * IZR (Z.pos m))%R by ring.
    rewrite Rmult_assoc. apply Rmult_le_compat_l; lra.
Qed.

Lemma bpow_neg_IZR k : 0 <= k -> bpow (- k) = (/ IZR (2 ^ k))%R.
Proof.
  intros Hk. pose proof (bpow_pos k) as Hp.
  assert (H1 : (bpow (- k) * bpow k = 1)%R).
  { rewrite <- bpow_add. replace (- k + k) with 0 by lia. reflexivity. }
  rewrite <- bpow_IZR by exact Hk.
  apply Rmult_eq_reg_r with (bpow k); [|lra].
  rewrite H1. field. lra.
Qed.

(** [int(q * n)] for a quotient [q] below one half: it stays below
    [q * n] up to two roundings. *)
Lemma mul_int_trunc_bound mw ew C n w :
  2 ^ 52 <= Z.pos mw < 2 ^ 53 -> -60 <= ew <= -54 ->
  (F2R (Z.pos mw) ew * (1 + u) * (1 + u) <= IZR C / 1000)%R ->
  0 < n < float_int_limit ->
  exists x t,
    float_mul_int (S754_finite false mw ew) n w = Ret (x, w) /\
    int_of_float x w = Ret (t, w) /\
    0 <= t /\ 1000 * t <= C * n.
Proof.
  intros Hmw Hew HC Hn.
  destruct (float_of_int_pos n w Hn) as (m & e & Hf & Hm & He & Hfv).
  destruct (SFmul_bound mw ew m e Hmw Hew Hm He) as (m' & e' & Hmul & Hmv).
  destruct (int_of_float_bound m' e' w) as (t & Ht & Ht0 & Htv).
  exists (S754_finite false m' e'), t. unfold float_mul_int, bind. rewrite Hf.
  unfold ret. rewrite Hmul.
  split; [reflexivity|]. split; [exact Ht|]. split; [exact Ht0|].
  apply le_IZR. rewrite !mult_IZR.
  assert (Hq : (0 < F2R (Z.pos mw) ew)%R).
  { unfold F2R. apply Rmult_lt_0_compat; [apply IZR_lt; lia | apply bpow_pos]. }
  assert (Hn0 : (0 < IZR n)%R) by (apply IZR_lt; lia).
  pose proof u_pos as Hu.
  assert (H1 : (F2R (Z.pos mw) ew * F2R (Z.pos m) e
                <= F2R (Z.pos mw) ew * (IZR n * (1 + u)))%R)
    by (apply Rmult_le_compat_l; lra).
  assert (H2 : (F2R (Z.pos mw) ew * (IZR n * (1 + u)) * (1 + u)
                <= IZR C / 1000 * IZR n)%R).
  { replace (F2R (Z.pos mw) ew * (IZR n * (1 + u)) * (1 + u))%R
      with (IZR n * (F2R (Z.pos mw) ew * (1 + u) * (1 + u)))%R by ring.
    rewrite (Rmult_comm (IZR C / 1000)). apply Rmult_le_compat_l; lra. }
  assert (H3 : (F2R (Z.pos mw) ew * F2R (Z.pos m) e * (1 + u)
                <= F2R (Z.pos mw) ew * (IZR n * (1 + u)) * (1 + u))%R)
    by (apply Rmult_le_compat_r; lra).
  lra.
Qed.

Lemma quotient_bound mw ew C :
  Z.pos mw * 1000001 * 1000001 * 1000 <= C * 2 ^ (- ew) * 1000000 * 1000000 ->
  ew <= 0 ->
  (F2R (Z.pos mw) ew * (1 + u) * (1 + u) <= IZR C / 1000)%R.
Proof.
  intros H Hew. apply IZR_le in H. rewrite !mult_IZR in H. unfold F2R.
  replace ew with (- - ew) at 1 by lia. rewrite bpow_neg_IZR by lia.
  assert (Hp : (0 < IZR (2 ^ (- ew)))%R)
    by (apply IZR_lt, Z.pow_pos_nonneg; lia).
  assert (Hu : (0 < u <= / 1000000)%R).
  { split; [apply u_pos|]. unfold u. change (-53) with (Z.opp 53).
    rewrite (bpow_neg_IZR 53) by lia.
    apply Rinv_le_contravar; [lra|]. apply IZR_le, Z.leb_le. reflexivity. }
  set (P := IZR (2 ^ (- ew))) in *.
  set (M := IZR (Z.pos mw)) in *.
  assert (HM : (0 < M)%R) by (apply IZR_lt; lia).
  assert (Hs : ((1 + u) * (1 + u) <= 1000001 / 1000000 * (1000001 / 1000000))%R) by nra.
  apply Rmult_le_reg_r with P; [exact Hp|].
  replace (M * / P * (1 + u) * (1 + u) * P)%R with (M * ((1 + u) * (1 + u)))%R
    by (field; lra).
  assert (M * ((1 + u) * (1 + u)) <= M * (1000001 / 1000000 * (1000001 / 1000000)))%R
    by (apply Rmult_le_compat_l; lra).
  lra.
Qed.

(** Every base count of the configured table stays below its share. *)
Lemma base_count_bound priority C total w :
  In (priority, C) weight_bounds ->
  7 <= total <= float_int_limit ->
  exists t,
    base_count priority 30 total w = Ret (Z.max 1 t, w) /\
    0 <= t /\ 1000 * t <= C * (total - 1).
Proof.
  intros Hin Ht.
  assert (Hn : 0 < total - 1 < float_int_limit) by lia.
  assert (Hq : exists mw ew,
             int_truediv priority 30 w = Ret (S754_finite false mw ew, w) /\
             2 ^ 52 <= Z.pos mw < 2 ^ 53 /\ -60 <= ew <= -54 /\
             Z.pos mw * 1000001 * 1000001 * 1000 <= C * 2 ^ (- ew) * 1000000 * 1000000).
  { repeat (destruct Hin as [Heq | Hin]; [injection Heq as <- <- | ]);
      try contradiction;
      eexists; eexists; (split; [vm_compute; reflexivity|]);
      repeat split; vm_compute; discriminate. }
  destruct Hq as (mw & ew & Hdiv & Hmw & Hew & HC).
  destruct (mul_int_trunc_bound mw ew C (total - 1) w)
    as (x & t & Hx & Hi & Ht0 & Hb); try assumption.
  { apply quotient_bound; [exact HC | lia]. }
  exists t. unfold base_count, bind. rewrite Hdiv, Hx, Hi. auto.
Qed.

(** ** Computations that do not touch the world *)

Lemma pure_ret {A} (a : A) : pure_py (ret a).
Proof. intros w w'. reflexivity. Qed.

Lemma pure_raise {A} (e : exn) : pure_py (@raise A e).
Proof. intros w w'. reflexivity. Qed.

Lemma pure_out_of_fuel {A} : pure_py (fun _ : world => @OutOfFuel (A * world)).
Proof. intros w w'. reflexivity. Qed.

Lemma pure_bind {A B} (m : py A) (k : A -> py B) :
  pure_py m -> (forall a, pure_py (k a)) -> pure_py (bind m k).
Proof.
  intros Hm Hk w w'. unfold bind. rewrite (Hm w w').
  destruct (m w') as [[a w''] | e |]; cbn [attach]; [apply Hk | reflexivity ..].
Qed.

Lemma pure_for_each {A S} (l : list A) (body : A -> S -> py S) (s : S) :
  (forall x s', pure_py (body x s')) -> pure_py (for_each l body s).
Proof.
  intros Hb. revert s. induction l as [|x l IH]; intros s; cbn [for_each].
  - apply pure_ret.
  - apply pure_bind; auto.
Qed.

Lemma pure_map_py {A B} (f : A -> py B) (l : list A) :
  (forall x, pure_py (f x)) -> pure_py (map_py f l).
Proof.
  intros Hf. induction l as [|x l IH]; cbn [map_py].
  - apply pure_ret.
  - apply pure_bind; [auto|]. intros y.
    apply pure_bind; [auto|]. intros ys. apply pure_ret.
Qed.

Create HintDb pure discriminated.
#[local] Hint Resolve pure_ret pure_raise pure_out_of_fuel pure_for_each pure_map_py : pure.

Ltac pure_step :=
  match goal with
  | |- pure_py (bind _ _) => apply pure_bind; [|intros ?]
  | |- pure_py (match ?x with _ => _ end) => destruct x
  | |- pure_py (for_each _ _ _) => apply pure_for_each; intros ? ?
  | |- pure_py (map_py _ _) => apply pure_map_py; intros ?
  | |- pure_py _ => solve [auto with pure]
  end.

Lemma pure_dict_getitem {V} (d : dict V) k : pure_py (dict_getitem d k).
Proof. unfold dict_getitem. repeat pure_step. Qed.

Lemma pure_int_truediv a b : pure_py (int_truediv a b).
Proof. unfold int_truediv. repeat pure_step. Qed.

Lemma pure_float_of_int z : pure_py (float_of_int z).
Proof. unfold float_of_int. repeat pure_step. Qed.

Lemma pure_int_of_float x : pure_py (int_of_float x).
Proof. unfold int_of_float. repeat pure_step. Qed.

#[local] Hint Resolve pure_dict_getitem pure_int_truediv pure_float_of_int
  pure_int_of_float : pure.

Lemma pure_base_count p tp total : pure_py (base_count p tp total).
Proof. unfold base_count, float_mul_int. repeat pure_step. Qed.

#[local] Hint Resolve pure_base_count : pure.

Lemma pure_first_pass self total : pure_py (first_pass self total).
Proof. unfold first_pass, first_pass_body. repeat pure_step. Qed.

Lemma pure_by_priority self areas reverse : pure_py (by_priority self areas reverse).
Proof. unfold by_priority, sorted. repeat pure_step. Qed.

Lemma pure_surplus_body area st : pure_py (surplus_body area st).
Proof. unfold surplus_body. repeat pure_step. Qed.

Lemma pure_deficit_body area st : pure_py (deficit_body area st).
Proof. unfold deficit_body. repeat pure_step. Qed.

#[local] Hint Resolve pure_first_pass pure_by_priority pure_surplus_body
  pure_deficit_body : pure.

Lemma pure_surplus_loop fuel self areas st :
  pure_py (surplus_loop fuel self areas st).
Proof.
  revert st. induction fuel as [|fuel IH]; intros st; cbn [surplus_loop];
    repeat pure_step.
Qed.

Lemma pure_deficit_loop fuel self areas st :
  pure_py (deficit_loop fuel self areas st).
Proof.
  revert st. induction fuel as [|fuel IH]; intros st; cbn [deficit_loop];
    repeat pure_step.
Qed.

#[local] Hint Resolve pure_surplus_loop pure_deficit_loop : pure.

Lemma pure_allocate_and_top_up fuel self total :
  pure_py (allocate_and_top_up fuel self total).
Proof. unfold allocate_and_top_up. repeat pure_step. Qed.

#[local] Hint Resolve pure_allocate_and_top_up : pure.

Lemma pure_distribute_personnel fuel self total :
  pure_py (distribute_personnel fuel self total).
Proof. unfold distribute_personnel. repeat pure_step. Qed.

(** ** Dictionaries *)

Lemma sum_from l a : fold_left Z.add l a = a + sum l.
Proof.
  unfold sum. revert a. induction l as [|x l IH]; intros a; cbn [fold_left].
  - lia.
  - rewrite IH, (IH (0 + x)). lia.
Qed.

Lemma sum_cons x l : sum (x :: l) = x + sum l.
Proof. unfold sum at 1. cbn [fold_left]. rewrite sum_from. lia. Qed.

Lemma sum_app l l' : sum (l ++ l') = sum l + sum l'.
Proof.
  induction l as [|x l IH].
  - reflexivity.
  - change ((x :: l) ++ l') with (x :: (l ++ l')). rewrite !sum_cons, IH. lia.
Qed.

Lemma dict_get_keys {V} (d : dict V) k :
  In k (keys d) <-> exists v, dict_get d k = Some v.
Proof.
  induction d as [|[k' v'] d IH]; cbn [keys map In dict_get fst].
  - split; [contradiction | intros [v Hv]; discriminate].
  - destruct (String.eqb_spec k' k) as [-> | Hne].
    + split; [eauto | auto].
    + fold (keys d). rewrite <- IH. split; [intros [H | H]; [contradiction | exact H] | auto].
Qed.

Lemma keys_setitem {V} (d : dict V) k v :
  In k (keys d) -> keys (dict_setitem d k v) = keys d.
Proof.
  induction d as [|[k' v'] d IH]; cbn [keys map In dict_setitem fst]; [contradiction|].
  intros Hin. destruct (String.eqb_spec k' k) as [-> | Hne]; [reflexivity|].
  cbn [map fst]. f_equal. apply IH. destruct Hin; [contradiction | assumption].
Qed.

Lemma keys_setitem_new {V} (d : dict V) k v :
  ~ In k (keys d) -> keys (dict_setitem d k v) = keys d ++ [k].
Proof.
  unfold keys. induction d as [|[k' v'] d IH]; simpl; [reflexivity|].
  intros Hin. destruct (String.eqb_spec k' k) as [-> | Hne]; [tauto|].
  simpl. f_equal. apply IH. tauto.
Qed.

Lemma values_setitem_new {V} (d : dict V) k v :
  ~ In k (keys d) -> values (dict_setitem d k v) = values d ++ [v].
Proof.
  unfold keys, values. induction d as [|[k' v'] d IH]; simpl; [reflexivity|].
  intros Hin. destruct (String.eqb_spec k' k) as [-> | Hne]; [tauto|].
  simpl. f_equal. apply IH. tauto.
Qed.

Lemma sum_setitem (d : dict Z) k old v :
  dict_get d k = Some old ->
  sum (values (dict_setitem d k v)) = sum (values d) - old + v.
Proof.
  induction d as [|[k' v'] d IH]; cbn [values map dict_get dict_setitem snd];
    [discriminate|].
  destruct (String.eqb_spec k' k) as [-> | Hne]; intros H.
  - injection H as ->. cbn [map snd]. rewrite !sum_cons. lia.
  - cbn [map snd]. rewrite !sum_cons. fold (values (dict_setitem d k v)).
    rewrite (IH H). fold (values d). lia.
Qed.

Lemma dict_get_setitem {V} (d : dict V) k v k' :
  dict_get (dict_setitem d k v) k' = if String.eqb k k' then Some v else dict_get d k'.
Proof.
  induction d as [|[k0 v0] d IH]; cbn [dict_get dict_setitem].
  - destruct (String.eqb k k'); reflexivity.
  - destruct (String.eqb_spec k0 k) as [-> | Hne]; cbn [dict_get].
    + destruct (String.eqb k k'); reflexivity.
    + rewrite IH. destruct (String.eqb_spec k0 k') as [-> | Hne'].
      * destruct (String.eqb_spec k k'); [congruence | reflexivity].
      * reflexivity.
Qed.

(** ** The reconciliation loops *)

Lemma tops_up_refl skip st : 0 <= snd st -> tops_up skip st st.
Proof. intros H. unfold tops_up. repeat split; try lia. eauto using Z.le_refl. Qed.

Lemma tops_up_trans skip st1 st2 st3 :
  tops_up skip st1 st2 -> tops_up skip st2 st3 -> tops_up skip st1 st3.
Proof.
  intros (Hk & Hs & Hr & Hv & Hskip) (Hk' & Hs' & Hr' & Hv' & Hskip').
  unfold tops_up. repeat split; try congruence; try lia.
  intros k v H. destruct (Hv k v H) as (v2 & H2 & Hle).
  destruct (Hv' k v2 H2) as (v3 & H3 & Hle'). exists v3. split; [exact H3 | lia].
Qed.

Lemma surplus_body_spec area d r w :
  In area (keys d) -> area <> "Supervisors" -> 0 <= r ->
  exists d',
    surplus_body area (d, r) w = Ret ((d', Z.max 0 (r - 1)), w) /\
    tops_up "Supervisors" (d, r) (d', Z.max 0 (r - 1)).
Proof.
  intros Hin Hne Hr. unfold surplus_body.
  destruct (Z.ltb_spec 0 r) as [Hpos | Hzero].
  - apply dict_get_keys in Hin as Hget. destruct Hget as [c Hc].
    exists (dict_setitem d area (c + 1)). unfold bind, dict_getitem. rewrite Hc.
    unfold ret. replace (Z.max 0 (r - 1)) with (r - 1) by lia.
    split; [reflexivity|]. unfold tops_up. cbn [fst snd].
    rewrite keys_setitem by exact Hin. rewrite (sum_setitem d area c) by exact Hc.
    repeat split; try lia.
    + intros k v Hk. rewrite dict_get_setitem.
      destruct (String.eqb_spec area k) as [-> | Hk'].
      * exists (c + 1). split; [reflexivity|]. rewrite Hc in Hk. injection Hk as ->. lia.
      * exists v. split; [exact Hk | lia].
    + rewrite dict_get_setitem.
      destruct (String.eqb_spec area "Supervisors"); [contradiction | reflexivity].
  - exists d. replace (Z.max 0 (r - 1)) with r by lia.
    split; [reflexivity|]. apply tops_up_refl. exact Hr.
Qed.

Lemma surplus_sweep_spec order d r w :
  (forall a, In a order -> In a (keys d) /\ a <> "Supervisors") -> 0 <= r ->
  exists d',
    for_each order surplus_body (d, r) w
      = Ret ((d', Z.max 0 (r - Z.of_nat (List.length order))), w) /\
    tops_up "Supervisors" (d, r) (d', Z.max 0 (r - Z.of_nat (List.length order))).
Proof.
  revert d r. induction order as [|a order IH]; intros d r Hin Hr.
  - exists d. cbn [for_each List.length]. replace (Z.max 0 (r - Z.of_nat 0)) with r by lia.
    split; [reflexivity | apply tops_up_refl; exact Hr].
  - destruct (Hin a (or_introl eq_refl)) as [Ha Hne].
    destruct (surplus_body_spec a d r w Ha Hne Hr) as (d1 & Hstep & Hup).
    destruct (IH d1 (Z.max 0 (r - 1))) as (d2 & Hrest & Hup'); [| lia |].
    { intros b Hb. destruct (Hin b (or_intror Hb)) as [Hb1 Hb2].
      destruct Hup as (Hk & _). cbn [fst] in Hk. rewrite Hk. auto. }
    exists d2. cbn [for_each]. unfold bind. rewrite Hstep.
    replace (Z.max 0 (r - Z.of_nat (List.length (a :: order))))
      with (Z.max 0 (Z.max 0 (r - 1) - Z.of_nat (List.length order)))
      by (cbn [List.length]; lia).
    split; [exact Hrest | eapply tops_up_trans; eassumption].
Qed.

Lemma by_priority_descending w :
  by_priority distributor flagman_areas true w
  = Ret (["GIS + MB"; "Chiller Area"; "SSD"; "Gate"; "NCC Office"; "Store"], w).
Proof. reflexivity. Qed.

Lemma by_priority_ascending w :
  by_priority distributor flagman_areas false w
  = Ret (["Store"; "Gate"; "NCC Office"; "SSD"; "Chiller Area"; "GIS + MB"], w).
Proof. reflexivity. Qed.

(** With fuel for one sweep per unit, the surplus loop hands out all of
    [remaining]. *)
Lemma surplus_loop_spec fuel d r w :
  keys d = all_areas -> 0 <= r <= Z.of_nat fuel ->
  exists d',
    surplus_loop fuel distributor flagman_areas (d, r) w = Ret ((d', 0), w) /\
    tops_up "Supervisors" (d, r) (d', 0).
Proof.
  revert d r. induction fuel as [|fuel IH]; intros d r Hk Hr.
  - assert (r = 0) by lia. subst r. exists d.
    split; [reflexivity | apply tops_up_refl; cbn; lia].
  - cbn [surplus_loop snd]. destruct (Z.ltb_spec 0 r) as [Hpos | Hzero].
    + unfold bind at 1. rewrite by_priority_descending.
      set (order := ["GIS + MB"; "Chiller Area"; "SSD"; "Gate"; "NCC Office"; "Store"]).
      destruct (surplus_sweep_spec order d r w) as (d1 & Hsweep & Hup); [| lia |].
      { intros a Ha. rewrite Hk. unfold order, all_areas in *. cbn [In] in *.
        intuition (subst; auto; discriminate). }
      unfold bind. rewrite Hsweep.
      assert (Hk1 : keys d1 = all_areas) by (destruct Hup as (Hk1 & _); cbn [fst] in Hk1; congruence).
      destruct (IH d1 (Z.max 0 (r - Z.of_nat (List.length order))) Hk1) as (d2 & Hloop & Hup').
      { unfold order. cbn [List.length]. lia. }
      exists d2. split; [exact Hloop | eapply tops_up_trans; eassumption].
    + assert (r = 0) by lia. subst r. exists d.
      split; [reflexivity | apply tops_up_refl; cbn; lia].
Qed.

(** ** The first pass on the configured table *)

Lemma first_pass_body_flagman tp total area p d a c w :
  String.eqb area "Supervisors" = false ->
  base_count p tp total w = Ret (c, w) ->
  first_pass_body tp total (area, p) (d, a) w
  = Ret ((dict_setitem d area c, a + c), w).
Proof.
  intros Hne Hc. unfold first_pass_body. rewrite Hne. unfold bind. rewrite Hc.
  reflexivity.
Qed.

Lemma first_pass_large total w :
  200 < total <= float_int_limit ->
  exists st, first_pass distributor total w = Ret (st, w) /\ first_pass_post total st.
Proof.
  intros Ht.
  assert (Hb : forall p C, In (p, C) weight_bounds ->
             exists t, base_count p 30 total w = Ret (Z.max 1 t, w) /\
                       0 <= t /\ 1000 * t <= C * (total - 1)).
  { intros p C Hin. apply base_count_bound; [exact Hin | lia]. }
  destruct (Hb 8 267) as (t1 & H1 & H1a & H1b); [cbn; tauto|].
  destruct (Hb 6 201) as (t2 & H2 & H2a & H2b); [cbn; tauto|].
  destruct (Hb 5 167) as (t3 & H3 & H3a & H3b); [cbn; tauto|].
  destruct (Hb 4 134) as (t4 & H4 & H4a & H4b); [cbn; tauto|].
  destruct (Hb 2 67) as (t6 & H6 & H6a & H6b); [cbn; tauto|].
  clear Hb.
  eexists. split.
  - unfold first_pass.
    change (sum (values (area_priorities distributor))) with 30.
    change (items (area_priorities distributor))
      with [("GIS + MB", 8); ("Chiller Area", 6); ("SSD", 5); ("Gate", 4);
            ("NCC Office", 4); ("Store", 2); ("Supervisors", 1)].
    cbn [for_each]. unfold bind.
    rewrite (first_pass_body_flagman _ _ "GIS + MB" _ _ _ _ _ eq_refl H1).
    rewrite (first_pass_body_flagman _ _ "Chiller Area" _ _ _ _ _ eq_refl H2).
    rewrite (first_pass_body_flagman _ _ "SSD" _ _ _ _ _ eq_refl H3).
    rewrite (first_pass_body_flagman _ _ "Gate" _ _ _ _ _ eq_refl H4).
    rewrite (first_pass_body_flagman _ _ "NCC Office" _ _ _ _ _ eq_refl H4).
    rewrite (first_pass_body_flagman _ _ "Store" _ _ _ _ _ eq_refl H6).
    cbn [dict_setitem String.eqb Ascii.eqb Bool.eqb first_pass_body].
    reflexivity.
  - unfold first_pass_post. cbn [fst snd]. repeat split.
    + intros k v. cbn [dict_get].
      repeat (destruct (String.eqb _ k); [intros [= <-]; lia|]). discriminate.
    + lia.
    + lia.
Qed.

Lemma forallb2_eqb l l' : forallb2 String.eqb l l' = true -> l = l'.
Proof.
  revert l'. induction l as [|x l IH]; intros [|y l']; cbn [forallb2];
    try discriminate; [reflexivity|].
  intros H. apply andb_true_iff in H as [Hxy Hl].
  apply String.eqb_eq in Hxy. f_equal; auto.
Qed.

Lemma dict_get_values {V} (d : dict V) k v : dict_get d k = Some v -> In v (values d).
Proof.
  unfold values. induction d as [|[k' v'] d IH]; cbn [dict_get map snd In];
    [discriminate|].
  destruct (String.eqb k' k); [intros [= ->]; auto | auto].
Qed.

Lemma first_pass_checked total w :
  first_pass_check total = true ->
  exists st, first_pass distributor total w = Ret (st, w) /\ first_pass_post total st.
Proof.
  unfold first_pass_check. intros H.
  rewrite (pure_first_pass distributor total w sample_world).
  destruct (first_pass distributor total _) as [[[d a] w'] | e |]; try discriminate.
  exists (d, a). split; [reflexivity|].
  repeat (apply andb_true_iff in H as [H ?]).
  unfold first_pass_post. cbn [fst snd]. repeat split.
  - apply forallb2_eqb. assumption.
  - lia.
  - intros k v Hk. apply dict_get_values in Hk.
    match goal with Hall : forallb _ _ = true |- _ =>
      rewrite forallb_forall in Hall; specialize (Hall v Hk) end. lia.
  - lia.
  - lia.
Qed.

Lemma first_pass_small total :
  7 <= total <= 200 -> first_pass_check total = true.
Proof.
  intros Ht.
  assert (Hall : forallb first_pass_check
                   (map (fun i => 7 + Z.of_nat i) (seq 0 194)) = true)
    by (vm_compute; reflexivity).
  rewrite forallb_forall in Hall. apply Hall.
  apply in_map_iff. exists (Z.to_nat (total - 7)). split; [lia|].
  apply in_seq. lia.
Qed.

(** The first pass never allocates more than [total - 1]. *)
Lemma first_pass_spec total w :
  7 <= total <= float_int_limit ->
  exists st, first_pass distributor total w = Ret (st, w) /\ first_pass_post total st.
Proof.
  intros Ht. destruct (Z_le_gt_dec total 200) as [Hsmall | Hlarge].
  - apply first_pass_checked, first_pass_small. lia.
  - apply first_pass_large. lia.
Qed.

(** ** The distribution *)

Lemma deficit_loop_idle fuel self areas d w :
  deficit_loop fuel self areas (d, 0) w = Ret ((d, 0), w).
Proof. destruct fuel; reflexivity. Qed.

Lemma allocate_and_top_up_spec fuel total w :
  7 <= total <= float_int_limit -> (Z.to_nat total <= fuel)%nat ->
  exists d,
    allocate_and_top_up fuel distributor total w = Ret ((flagman_areas, (d, 0)), w) /\
    distribution_post total d.
Proof.
  intros Ht Hfuel.
  destruct (first_pass_spec total w Ht) as ([d0 a] & Hfirst & Hk0 & Hs0 & Hv0 & Ha0 & Ha).
  destruct Ht as [Ht _]. cbn [fst snd] in *.
  assert (Hnew : ~ In "Supervisors" (keys d0)).
  { rewrite Hk0. cbn. intuition discriminate. }
  set (d1 := dict_setitem d0 "Supervisors" 1).
  assert (Hk1 : keys d1 = all_areas)
    by (unfold d1; rewrite keys_setitem_new, Hk0 by exact Hnew; reflexivity).
  assert (Hs1 : sum (values d1) = a + 1).
  { unfold d1. rewrite values_setitem_new, sum_app, Hs0 by exact Hnew. reflexivity. }
  assert (Hsup1 : dict_get d1 "Supervisors" = Some 1).
  { unfold d1. rewrite dict_get_setitem. reflexivity. }
  assert (Hv1 : forall k v, dict_get d1 k = Some v -> 1 <= v).
  { intros k v. unfold d1. rewrite dict_get_setitem.
    destruct (String.eqb "Supervisors" k); [intros [= <-]; lia | apply Hv0]. }
  destruct (surplus_loop_spec fuel d1 (total - (a + 1)) w Hk1)
    as (d2 & Hloop & Hk2 & Hs2 & _ & Hv2 & Hsup2); [lia|].
  cbn [fst snd] in *.
  exists d2. split.
  - unfold allocate_and_top_up, bind. rewrite Hfirst. fold d1.
    change (removelast (keys (area_priorities distributor))) with flagman_areas.
    rewrite Hloop. reflexivity.
  - unfold distribution_post. repeat split.
    + congruence.
    + lia.
    + congruence.
    + intros k v' Hk.
      assert (Hin : In k (keys d1)) by (rewrite <- Hk2; apply dict_get_keys; eauto).
      apply dict_get_keys in Hin as [v Hv].
      destruct (Hv2 k v Hv) as (v'' & Hv'' & Hle).
      specialize (Hv1 k v Hv). rewrite Hk in Hv''. injection Hv'' as <-. lia.
Qed.

Lemma distribute_personnel_at fuel total w :
  7 <= total <= float_int_limit -> (Z.to_nat total <= fuel)%nat ->
  exists d,
    distribute_personnel fuel distributor total w = Ret (Some d, w) /\
    distribution_post total d.
Proof.
  intros Ht Hfuel.
  destruct (allocate_and_top_up_spec fuel total w Ht Hfuel) as (d & Halloc & Hpost).
  exists d. split; [|exact Hpost]. destruct Ht as [Ht _].
  unfold distribute_personnel. destruct (Z.ltb_spec total 7) as [|_]; [lia|].
  unfold bind. rewrite Halloc, deficit_loop_idle. reflexivity.
Qed.

(** *** Fuel

    A loop that came to an end does the same with more fuel. *)

Lemma surplus_loop_more_fuel fuel fuel' self areas st w :
  (fuel <= fuel')%nat ->
  surplus_loop fuel self areas st w <> OutOfFuel ->
  surplus_loop fuel' self areas st w = surplus_loop fuel self areas st w.
Proof.
  revert fuel' st w. induction fuel as [|fuel IH]; intros fuel' st w Hle Hend.
  - cbn [surplus_loop] in *. destruct fuel'; cbn [surplus_loop];
      destruct (0 <? snd st); try reflexivity; contradiction.
  - destruct fuel' as [|fuel']; [lia|]. cbn [surplus_loop] in *.
    destruct (0 <? snd st); [|reflexivity].
    unfold bind in *. destruct (by_priority self areas true w) as [[order w1] | e |];
      try reflexivity.
    destruct (for_each order surplus_body st w1) as [[st' w2] | e |]; try reflexivity.
    apply IH; [lia | exact Hend].
Qed.

Lemma deficit_loop_more_fuel fuel fuel' self areas st w :
  (fuel <= fuel')%nat ->
  deficit_loop fuel self areas st w <> OutOfFuel ->
  deficit_loop fuel' self areas st w = deficit_loop fuel self areas st w.
Proof.
  revert fuel' st w. induction fuel as [|fuel IH]; intros fuel' st w Hle Hend.
  - cbn [deficit_loop] in *. destruct fuel'; cbn [deficit_loop];
      destruct (snd st <? 0); try reflexivity; contradiction.
  - destruct fuel' as [|fuel']; [lia|]. cbn [deficit_loop] in *.
    destruct (snd st <? 0); [|reflexivity].
    unfold bind in *. destruct (by_priority self areas false w) as [[order w1] | e |];
      try reflexivity.
    destruct (for_each order deficit_body st w1) as [[st' w2] | e |]; try reflexivity.
    apply IH; [lia | exact Hend].
Qed.

Lemma distribute_personnel_more_fuel fuel fuel' self total w :
  (fuel <= fuel')%nat ->
  distribute_personnel fuel self total w <> OutOfFuel ->
  distribute_personnel fuel' self total w = distribute_personnel fuel self total w.
Proof.
  intros Hle. unfold distribute_personnel. destruct (total <? 7); [reflexivity|].
  unfold allocate_and_top_up, bind.
  destruct (first_pass self total w) as [[[d a] w1] | e |]; try reflexivity.
  intros Hend.
  rewrite (surplus_loop_more_fuel fuel fuel') by
    (try exact Hle; intros Hout; apply Hend; rewrite Hout; reflexivity).
  unfold ret in *.
  destruct (surplus_loop fuel self _ _ w1) as [[st w2] | e |]; try reflexivity.
  rewrite (deficit_loop_more_fuel fuel fuel') by
    (try exact Hle; intros Hout; apply Hend; rewrite Hout; reflexivity).
  reflexivity.
Qed.

(** Between 7 and the float limit [total] has one distribution, returned in
    every world and for any fuel from [total] on. *)
Lemma distribute_personnel_spec total :
  7 <= total <= float_int_limit ->
  exists d,
    distribution_post total d /\
    forall fuel w, (Z.to_nat total <= fuel)%nat ->
                   distribute_personnel fuel distributor total w = Ret (Some d, w).
Proof.
  intros Ht.
  destruct (distribute_personnel_at (Z.to_nat total) total sample_world Ht (le_n _))
    as (d & Hd & Hpost).
  exists d. split; [exact Hpost|]. intros fuel w Hfuel.
  rewrite (pure_distribute_personnel fuel distributor total w sample_world).
  rewrite (distribute_personnel_more_fuel (Z.to_nat total) fuel) by
    (try exact Hfuel; rewrite Hd; discriminate).
  rewrite Hd. reflexivity.
Qed.

(** ** Equipment assignments *)

Lemma parse_count_str k : parse_count (str k) = Some k.
Proof.
  unfold parse_count, str. rewrite NilZero.isi.
  - cbn [option_map]. rewrite DecimalZ.of_to. reflexivity.
  - destruct k; cbn [Z.to_int]; intros [=].
    apply (Unsigned.to_uint_nonnil p). assumption.
  - destruct k; cbn [Z.to_int]; intros [=].
    apply (Unsigned.to_uint_nonnil p). assumption.
Qed.

Lemma label_known name c :
  In name equipment_names -> 1 <= c ->
  label_multiplicity (format_assignment (name, c)) = c.
Proof.
  intros Hin Hc. unfold format_assignment.
  destruct (Z.ltb_spec 1 c) as [Hmany | Hone].
  - unfold equipment_names in Hin. cbn in Hin.
    repeat (destruct Hin as [<- | Hin];
            [cbn [label_multiplicity append Ascii.eqb Bool.eqb];
             rewrite parse_count_str; reflexivity|]).
    contradiction.
  - replace c with 1 by lia. unfold equipment_names in Hin. cbn in Hin.
    repeat (destruct Hin as [<- | Hin]; [reflexivity|]). contradiction.
Qed.

Lemma remove_nth_perm {A} (l : list A) j x :
  nth_error l j = Some x -> Permutation l (x :: remove_nth j l).
Proof.
  revert j. induction l as [|a l IH]; intros [|j]; cbn [nth_error remove_nth];
    try discriminate.
  - intros [= ->]. reflexivity.
  - intros H. apply IH in H.
    apply Permutation_trans with (a :: x :: remove_nth j l).
    + apply perm_skip. exact H.
    + apply perm_swap.
Qed.

Lemma randbelow_spec n w :
  (0 < n)%nat -> exists j w', randbelow n w = Ret (j, w') /\ (j < n)%nat.
Proof.
  intros Hn. unfold randbelow. destruct (rng w) as [|r t].
  - exists 0%nat, w. split; [reflexivity | exact Hn].
  - eexists. eexists. split; [reflexivity|]. apply Nat.mod_upper_bound. lia.
Qed.

(** [random.shuffle] returns, with the same elements in some order. *)
Lemma random_shuffle_spec {A} (l : list A) w :
  exists l' w', random_shuffle l w = Ret (l', w') /\ Permutation l l'.
Proof.
  unfold random_shuffle. remember (List.length l) as n eqn:Hn.
  revert l w Hn. induction n as [|n IH]; intros l w Hn.
  - destruct l; [|discriminate]. exists [], w. split; [reflexivity | constructor].
  - cbn [shuffle_from]. rewrite <- Hn.
    destruct (randbelow_spec (S n) w) as (j & w1 & Hj & Hlt); [lia|].
    unfold bind at 1. rewrite Hj.
    destruct (nth_error l j) as [x|] eqn:Hx.
    + pose proof (remove_nth_perm l j x Hx) as Hp.
      destruct (IH (remove_nth j l) w1) as (rest & w2 & Hrest & Hp').
      { apply Permutation_length in Hp. cbn [List.length] in Hp. lia. }
      exists (x :: rest), w2. unfold bind. rewrite Hrest. split; [reflexivity|].
      apply Permutation_trans with (x :: remove_nth j l); [exact Hp|].
      apply perm_skip. exact Hp'.
    + apply nth_error_None in Hx. lia.
Qed.

(** And every order is the outcome of some draws. *)
Lemma random_shuffle_any {A} (l l' : list A) (c : string) :
  Permutation l l' ->
  exists tape,
    random_shuffle l {| rng := tape; clock := c |}
    = Ret (l', {| rng := []; clock := c |}).
Proof.
  revert l. induction l' as [|x rest IH]; intros l Hperm.
  - apply Permutation_sym, Permutation_nil in Hperm. subst l.
    exists []. reflexivity.
  - assert (Hin : In x l).
    { eapply Permutation_in; [apply Permutation_sym; exact Hperm | left; reflexivity]. }
    apply In_nth_error in Hin as [j Hj].
    pose proof (remove_nth_perm l j x Hj) as Hrm.
    assert (Hrest : Permutation (remove_nth j l) rest).
    { apply Permutation_cons_inv with x.
      apply Permutation_trans with l; [apply Permutation_sym; exact Hrm | exact Hperm]. }
    destruct (IH _ Hrest) as [tape Htape].
    assert (Hlt : (j < List.length l)%nat) by (apply nth_error_Some; congruence).
    assert (Hlen : List.length l = S (List.length (remove_nth j l))).
    { apply Permutation_length in Hrm. exact Hrm. }
    exists (j :: tape). unfold random_shuffle in *. rewrite Hlen at 1.
    cbn [shuffle_from]. unfold bind at 1. unfold randbelow. cbn [rng clock].
    rewrite Nat.mod_small by exact Hlt. rewrite Hj.
    unfold bind. rewrite Htape. reflexivity.
Qed.

Lemma in_setitem {V} (d : dict V) k v k' v' :
  In (k', v') (dict_setitem d k v) -> (k', v') = (k, v) \/ In (k', v') d.
Proof.
  induction d as [|[k0 v0] d IH]; cbn [dict_setitem In].
  - intros [H | []]. left. congruence.
  - destruct (String.eqb_spec k0 k) as [-> | Hne]; cbn [In].
    + intros [H | H]; [left; congruence | right; right; exact H].
    + intros [H | H]; [right; left; exact H|].
      destruct (IH H) as [H' | H']; [left; exact H' | right; right; exact H'].
Qed.

(** The tally of one shuffled pool. *)
Section Tally.

Variable equipment_list : list string.
Hypothesis nonempty : equipment_list <> [].
Hypothesis known : forall x, In x equipment_list -> In x equipment_names.

Lemma tally_inv_get d k v :
  tally_inv equipment_list d -> dict_get d k = Some v -> 1 <= v.
Proof.
  intros Hinv. induction d as [|[k0 v0] d IH]; cbn [dict_get]; [discriminate|].
  destruct (String.eqb_spec k0 k) as [-> | Hne].
  - intros [= ->]. apply (Hinv k v). left. reflexivity.
  - apply IH. intros k' v' Hin. apply Hinv. right. exact Hin.
Qed.

Lemma tally_body_spec i d w :
  0 <= i -> tally_inv equipment_list d ->
  exists d', tally_body equipment_list i d w = Ret (d', w) /\
             tally_inv equipment_list d' /\
             sum (values d') = sum (values d) + 1.
Proof.
  intros Hi Hinv. unfold tally_body, int_mod.
  assert (Hlen : 0 < Z.of_nat (List.length equipment_list))
    by (destruct equipment_list; [congruence | cbn; lia]).
  destruct (Z.eqb_spec (Z.of_nat (List.length equipment_list)) 0) as [|_]; [lia|].
  unfold bind at 1. unfold ret at 1. unfold list_getitem.
  pose proof (Z.mod_pos_bound i _ Hlen) as Hmod.
  destruct (nth_error equipment_list
              (Z.to_nat (i mod Z.of_nat (List.length equipment_list))))
    as [x|] eqn:Hx; [| apply nth_error_None in Hx; lia].
  apply nth_error_In in Hx. unfold bind, ret. eexists. split; [reflexivity|].
  unfold dict_get_default. destruct (dict_get d x) as [old|] eqn:Hget.
  - split.
    + intros k v Hin. apply in_setitem in Hin as [[= -> ->] | Hin]; [|auto].
      split; [exact Hx|]. pose proof (tally_inv_get d x old Hinv Hget). lia.
    + rewrite (sum_setitem d x old) by exact Hget. lia.
  - assert (Hnew : ~ In x (keys d)).
    { intros Hin. apply dict_get_keys in Hin as [v Hv]. congruence. }
    split.
    + intros k v Hin. apply in_setitem in Hin as [[= -> ->] | Hin]; [|auto].
      split; [exact Hx | lia].
    + rewrite values_setitem_new, sum_app by exact Hnew. unfold sum. cbn. lia.
Qed.

Lemma tally_spec l d w :
  (forall i, In i l -> 0 <= i) -> tally_inv equipment_list d ->
  exists d', for_each l (tally_body equipment_list) d w = Ret (d', w) /\
             tally_inv equipment_list d' /\
             sum (values d') = sum (values d) + Z.of_nat (List.length l).
Proof.
  revert d. induction l as [|i l IH]; intros d Hl Hinv.
  - exists d. cbn [for_each List.length].
    split; [reflexivity | split; [exact Hinv | lia]].
  - destruct (tally_body_spec i d w) as (d1 & Hstep & Hinv1 & Hsum1);
      [apply Hl; left; reflexivity | exact Hinv |].
    destruct (IH d1) as (d2 & Hrest & Hinv2 & Hsum2);
      [intros j Hj; apply Hl; right; exact Hj | exact Hinv1 |].
    exists d2. cbn [for_each]. unfold bind. rewrite Hstep.
    split; [exact Hrest | split; [exact Hinv2 |]]. cbn [List.length]. lia.
Qed.

Lemma occurrences_format d :
  tally_inv equipment_list d ->
  occurrences (map format_assignment (items d)) = sum (values d).
Proof.
  unfold occurrences, items, values.
  induction d as [|[k v] d IH]; intros Hinv; [reflexivity|].
  cbn [map snd]. rewrite !sum_cons.
  destruct (Hinv k v (or_introl eq_refl)) as [Hk Hv].
  rewrite label_known by auto. f_equal. apply IH.
  intros k' v' Hin. apply Hinv. right. exact Hin.
Qed.

(** [for i in range(count)] and the formatting of its tally. *)
Lemma tally_occurrences count w :
  0 <= count ->
  exists d, for_each (range count) (tally_body equipment_list) [] w = Ret (d, w) /\
            occurrences (map format_assignment (items d)) = count.
Proof.
  intros Hc.
  destruct (tally_spec (range count) [] w) as (d & Htally & Hinv & Hsum).
  { intros i Hi. unfold range in Hi. apply in_map_iff in Hi as (j & <- & _). lia. }
  { intros k v []. }
  exists d. split; [exact Htally|].
  rewrite (occurrences_format d Hinv), Hsum.
  unfold range. rewrite length_map, length_seq. unfold sum. cbn. lia.
Qed.

End Tally.

Lemma pool_names area pool x :
  dict_get (equipment_pools distributor) area = Some pool ->
  In x pool -> In x equipment_names.
Proof.
  intros Hget Hin. unfold equipment_names. apply in_concat.
  exists pool. split; [eapply dict_get_values; exact Hget | exact Hin].
Qed.

(** Outside the supervisors the occurrence counts sum to [count], however
    the shuffle goes. *)
Lemma get_equipment_assignments_spec area count w :
  In area (keys (equipment_pools distributor)) -> area <> "Supervisors" ->
  1 <= count ->
  exists l w', get_equipment_assignments distributor area count w = Ret (l, w') /\
               occurrences l = count.
Proof.
  intros Hin Hne Hc. unfold get_equipment_assignments.
  destruct (String.eqb_spec area "Supervisors") as [|_]; [contradiction|].
  apply dict_get_keys in Hin as [pool Hpool].
  unfold bind at 1. unfold dict_getitem. rewrite Hpool. unfold ret at 1.
  destruct (String.eqb_spec area "Store") as [-> | Hns].
  - eexists. eexists. split; [reflexivity|].
    unfold occurrences. cbn [map]. rewrite sum_cons.
    change (if 1 <? count then ("Assigned x" ++ str count)%string else "Assigned")
      with (format_assignment ("Assigned", count)).
    rewrite label_known; [unfold sum; cbn [fold_left]; lia | | exact Hc].
    eapply pool_names; [exact Hpool|]. injection Hpool as <-. left. reflexivity.
  - destruct (random_shuffle_spec pool w) as (el & w1 & Hsh & Hperm).
    unfold bind at 1. rewrite Hsh.
    assert (Hel : el <> []).
    { intros ->. apply Permutation_sym, Permutation_nil in Hperm. subst pool.
      revert Hpool. cbn [dict_get equipment_pools distributor FlagmanDistributor_init].
      repeat (destruct (String.eqb _ area); [discriminate|]). discriminate. }
    assert (Hknown : forall x, In x el -> In x equipment_names).
    { intros x Hx. eapply pool_names; [exact Hpool|].
      eapply Permutation_in; [apply Permutation_sym; exact Hperm | exact Hx]. }
    destruct (tally_occurrences el Hel Hknown count w1) as (d & Htally & Hocc); [lia|].
    exists (map format_assignment (items d)), w1. unfold bind. rewrite Htally.
    split; [reflexivity | exact Hocc].
Qed.

(** ** Beyond the floats *)

Lemma float_int_limit_above : 2000 < float_int_limit.
Proof. reflexivity. Qed.

Lemma first_pass_overflow total w :
  float_int_limit < total -> first_pass distributor total w = Raise OverflowError.
Proof.
  intros Ht. unfold first_pass.
  change (sum (values (area_priorities distributor))) with 30.
  change (items (area_priorities distributor))
    with [("GIS + MB", 8); ("Chiller Area", 6); ("SSD", 5); ("Gate", 4);
          ("NCC Office", 4); ("Store", 2); ("Supervisors", 1)].
  cbn [for_each]. unfold bind at 1.
  change (first_pass_body 30 total ("GIS + MB", 8) ([], 0) w)
    with (bind (base_count 8 30 total)
               (fun count => ret (dict_setitem [] "GIS + MB" count, 0 + count)) w).
  unfold bind at 1. unfold base_count. unfold bind at 1.
  change (int_truediv 8 30 w) with (Ret (S754_finite false 4803839602528529 (-54), w)).
  cbv beta iota. unfold bind at 1. unfold float_mul_int, bind.
  rewrite float_of_int_overflow; [reflexivity|].
  revert Ht. generalize float_int_limit. intros; lia.
Qed.

Lemma distribute_personnel_overflow fuel total w :
  float_int_limit < total ->
  distribute_personnel fuel distributor total w = Raise OverflowError.
Proof.
  intros Ht. unfold distribute_personnel.
  destruct (Z.ltb_spec total 7) as [Hlt | _].
  - pose proof float_int_limit_above as Hl.
    revert Ht Hl. generalize float_int_limit. intros; lia.
  - unfold bind at 1. unfold allocate_and_top_up. unfold bind at 1.
    rewrite first_pass_overflow by exact Ht. reflexivity.
Qed.

(** ** The report *)

Lemma report_line_returns total d area report w :
  distribution_post total d -> In area all_areas ->
  exists report' w', report_line distributor d area report w = Ret (report', w').
Proof.
  intros (Hk & _ & _ & Hv) Hin. unfold report_line.
  assert (Hd : In area (keys d)) by (rewrite Hk; exact Hin).
  apply dict_get_keys in Hd as [count Hcount].
  unfold bind at 1. unfold dict_getitem. rewrite Hcount. unfold ret at 1.
  destruct (String.eqb_spec area "Supervisors") as [-> | Hne].
  - eexists. eexists. reflexivity.
  - destruct (get_equipment_assignments_spec area count w) as (l & w' & Hl & _);
      [exact Hin | exact Hne | eapply Hv; exact Hcount |].
    unfold bind. rewrite Hl. eexists. eexists. reflexivity.
Qed.

Lemma report_lines_return total d areas report w :
  distribution_post total d -> (forall a, In a areas -> In a all_areas) ->
  exists report' w',
    for_each areas (report_line distributor d) report w = Ret (report', w').
Proof.
  intros Hpost. revert report w. induction areas as [|a areas IH]; intros report w Hin.
  - eexists. eexists. reflexivity.
  - destruct (report_line_returns total d a report w Hpost) as (r1 & w1 & H1);
      [apply Hin; left; reflexivity|].
    destruct (IH r1 w1) as (r2 & w2 & H2); [intros b Hb; apply Hin; right; exact Hb|].
    exists r2, w2. cbn [for_each]. unfold bind. rewrite H1. exact H2.
Qed.

Lemma generate_report_below fuel self total w :
  total < 7 -> generate_report fuel self total w = Ret (apology, w).
Proof.
  intros Ht. unfold generate_report, distribute_personnel, bind.
  destruct (Z.ltb_spec total 7) as [_ | Hge]; [reflexivity | lia].
Qed.

Lemma generate_report_from_7 fuel total w :
  7 <= total <= float_int_limit -> (Z.to_nat total <= fuel)%nat ->
  exists s w', generate_report fuel distributor total w = Ret (s, w').
Proof.
  intros Ht Hfuel.
  destruct (distribute_personnel_spec total Ht) as (d & Hpost & Hd).
  unfold generate_report. unfold bind at 1. rewrite (Hd fuel w Hfuel).
  destruct Hpost as (Hk & Hs & Hsup & Hv).
  destruct d as [|item d']; [discriminate|]. cbn [falsy].
  set (d := item :: d') in *.
  unfold bind at 1. unfold datetime_now_strftime.
  unfold bind at 1. unfold dict_getitem at 1. rewrite Hsup. unfold ret at 1.
  match goal with
  | |- context [for_each ?areas (report_line distributor d) ?r] =>
      destruct (report_lines_return total d areas r w) as (r' & w' & Hr)
  end.
  { unfold distribution_post. auto. }
  { intros a Ha. exact Ha. }
  unfold bind at 1. rewrite Hr. unfold bind, dict_getitem. rewrite Hsup.
  eexists. eexists. reflexivity.
Qed.

Lemma generate_report_overflow fuel total w :
  float_int_limit < total ->
  generate_report fuel distributor total w = Raise OverflowError.
Proof.
  intros Ht. unfold generate_report, bind.
  rewrite distribute_personnel_overflow by exact Ht. reflexivity.
Qed.

(** * The claims *)

(** ** C1 *)

(** C1. For every integer [total] in [[7, 200]], [distribute_personnel total]
    returns a distribution whose per-area counts sum exactly to [total]: the
    same one in every world and for any fuel from [total] sweeps on. *)
Theorem distribute_personnel_sums_to_total (total : Z) :
  7 <= total <= 200 ->
  exists d,
    sum (values d) = total /\
    forall fuel w, (Z.to_nat total <= fuel)%nat ->
                   distribute_personnel fuel distributor total w = Ret (Some d, w).
Proof.
  intros [H7 H200].
  destruct (distribute_personnel_spec total) as (d & (_ & Hsum & _) & Hd).
  - split; [exact H7|]. apply Z.le_trans with 2000; [lia|].
    apply Z.lt_le_incl, float_int_limit_above.
  - exists d. split; assumption.
Qed.

Lemma distribute_personnel_sums_to_total_witness :
  exists d,
    sum (values d) = 30 /\
    forall fuel w, (Z.to_nat 30 <= fuel)%nat ->
                   distribute_personnel fuel distributor 30 w = Ret (Some d, w).
Proof.
  apply (distribute_personnel_sums_to_total 30). lia.
Defined.

(** ** C2 *)


Lemma base_counts_checked total :
  7 <= total <= 2000 -> base_counts_check total = true.
Proof.
  intros Ht.
  assert (Hall : forallb base_counts_check
                   (map (fun i => 7 + Z.of_nat i) (seq 0 1994)) = true)
    by (vm_compute; reflexivity).
  rewrite forallb_forall in Hall. apply Hall.
  apply in_map_iff. exists (Z.to_nat (total - 7)). split; [lia|].
  apply in_seq. lia.
Qed.



(** Far above the range of C2 the share is no longer exact: the product is
    rounded to a double before it is truncated. *)
Lemma base_count_rounded_at_2p60 :
  exists d a,
    first_pass distributor (2 ^ 60 + 1) sample_world = Ret ((d, a), sample_world) /\
    dict_get d "GIS + MB" = Some 307445734561825856 /\
    share_base_count distributor 8 (2 ^ 60 + 1) = 307445734561825860.
Proof. eexists. eexists. repeat split; vm_compute; reflexivity. Qed.

(** ** C3 *)

(** C3 as stated fails: at [total = 2 ^ 1024] the call does not return,
    [total - 1] does not convert to a float and [OverflowError] is raised. *)
Lemma distribute_personnel_overflow_counterexample :
  7 <= 2 ^ 1024 /\
  forall fuel w,
    distribute_personnel fuel distributor (2 ^ 1024) w = Raise OverflowError.
Proof.
  split; [apply Z.leb_le; reflexivity|].
  intros fuel w. apply distribute_personnel_overflow. reflexivity.
Qed.

(** C3, amended. For every integer [total] with
    [7 <= total <= 2 ^ 1024 - 2 ^ 970], [total = 300] included,
    [distribute_personnel total] terminates (fuel for [total] sweeps is
    enough) and the returned counts sum to [total]. *)
Theorem distribute_personnel_terminates (total : Z) :
  7 <= total <= float_int_limit ->
  exists d,
    sum (values d) = total /\
    forall fuel w, (Z.to_nat total <= fuel)%nat ->
                   distribute_personnel fuel distributor total w = Ret (Some d, w).
Proof.
  intros Ht.
  destruct (distribute_personnel_spec total Ht) as (d & (_ & Hsum & _) & Hd).
  exists d. split; assumption.
Qed.

Lemma distribute_personnel_terminates_witness :
  exists d,
    sum (values d) = 300 /\
    forall fuel w, (Z.to_nat 300 <= fuel)%nat ->
                   distribute_personnel fuel distributor 300 w = Ret (Some d, w).
Proof.
  apply (distribute_personnel_terminates 300).
  split; [lia|]. apply Z.leb_le. reflexivity.
Defined.

(** ** C4 *)

(** C4. For every integer [total] in [[7, 200]] the distribution returned by
    [distribute_personnel] maps the Supervisors area to exactly 1, and gives
    every other area of the priority table a count of at least 1. *)
Theorem distribute_personnel_supervisor_and_floor (total : Z) :
  7 <= total <= 200 ->
  exists d,
    (forall fuel w, (Z.to_nat total <= fuel)%nat ->
                    distribute_personnel fuel distributor total w = Ret (Some d, w)) /\
    dict_get d "Supervisors" = Some 1 /\
    forall area, In area (keys (area_priorities distributor)) ->
                 area <> "Supervisors" ->
                 exists c, dict_get d area = Some c /\ 1 <= c.
Proof.
  intros [H7 H200].
  destruct (distribute_personnel_spec total) as (d & (Hk & _ & Hsup & Hv) & Hd).
  - split; [exact H7|]. apply Z.le_trans with 2000; [lia|].
    apply Z.lt_le_incl, float_int_limit_above.
  - exists d. split; [exact Hd|]. split; [exact Hsup|].
    intros area Hin _. change (keys (area_priorities distributor)) with all_areas in Hin.
    rewrite <- Hk in Hin. apply dict_get_keys in Hin as [c Hc].
    exists c. split; [exact Hc | exact (Hv area c Hc)].
Qed.

Lemma distribute_personnel_supervisor_and_floor_witness :
  exists d,
    (forall fuel w, (Z.to_nat 7 <= fuel)%nat ->
                    distribute_personnel fuel distributor 7 w = Ret (Some d, w)) /\
    dict_get d "Supervisors" = Some 1 /\
    forall area, In area (keys (area_priorities distributor)) ->
                 area <> "Supervisors" ->
                 exists c, dict_get d area = Some c /\ 1 <= c.
Proof.
  apply (distribute_personnel_supervisor_and_floor 7). lia.
Defined.

(** ** C5 *)

(** C5. For every integer [total < 7], [distribute_personnel total] returns no
    distribution: its result is [None], whatever the table, the fuel and the
    world. *)
Theorem distribute_personnel_insufficient
    (total : Z) (fuel : nat) (self : FlagmanDistributor) (w : world) :
  total < 7 -> distribute_personnel fuel self total w = Ret (None, w).
Proof.
  intros Ht. unfold distribute_personnel.
  destruct (Z.ltb_spec total 7) as [_ | Hge]; [reflexivity | lia].
Qed.

Lemma distribute_personnel_insufficient_witness :
  distribute_personnel 0 distributor 6 sample_world = Ret (None, sample_world).
Proof.
  apply (distribute_personnel_insufficient 6 0 distributor sample_world). lia.
Defined.

(** ** C6 *)




(** ** C7 *)



(** ** C8 *)

(** C8. [distribute_personnel] is a function of [total] and the priority
    table alone: started in any two worlds (random generator, clock) it gives
    the same outcome, and it leaves the world as it found it. *)
Theorem distribute_personnel_deterministic
    (fuel : nat) (self : FlagmanDistributor) (total : Z) (w1 w2 : world) :
  result (distribute_personnel fuel self total w1)
    = result (distribute_personnel fuel self total w2) /\
  distribute_personnel fuel self total w1
    = attach (distribute_personnel fuel self total w2) w1.
Proof.
  pose proof (pure_distribute_personnel fuel self total w1 w2) as H.
  split; [|exact H]. rewrite H.
  destruct (distribute_personnel fuel self total w2) as [[d w'] | e |]; reflexivity.
Qed.

(** ** C9 *)

(** C9 as stated fails: at [total = 2 ^ 1024] [generate_report] raises
    [OverflowError]. *)
Lemma generate_report_overflow_counterexample :
  7 <= 2 ^ 1024 /\
  forall fuel w,
    generate_report fuel distributor (2 ^ 1024) w = Raise OverflowError.
Proof.
  split; [apply Z.leb_le; reflexivity|].
  intros fuel w. apply generate_report_overflow. reflexivity.
Qed.

(** C9, amended. For every integer [total <= 2 ^ 1024 - 2 ^ 970],
    [generate_report total] returns a string, and whenever [total < 7] that
    string is the fixed minimum-headcount message, the world untouched. *)
Theorem generate_report_returns (total : Z) (fuel : nat) (w : world) :
  total <= float_int_limit -> (Z.to_nat total <= fuel)%nat ->
  exists s w',
    generate_report fuel distributor total w = Ret (s, w') /\
    (total < 7 -> s = apology /\ w' = w).
Proof.
  intros Ht Hfuel. destruct (Z_lt_le_dec total 7) as [Hlt | Hge].
  - exists apology, w. split; [apply generate_report_below; exact Hlt | auto].
  - destruct (generate_report_from_7 fuel total w (conj Hge Ht) Hfuel) as (s & w' & Hs).
    exists s, w'. split; [exact Hs | lia].
Qed.

Lemma generate_report_returns_witness :
  exists s w',
    generate_report 30 distributor 30 sample_world = Ret (s, w') /\
    (30 < 7 -> s = apology /\ w' = sample_world).
Proof.
  apply (generate_report_returns 30 30 sample_world).
  - apply Z.leb_le. reflexivity.
  - lia.
Defined.

(** ** C10 *)

(** The state the specification warns about does loop for ever: with every
    count at 1 and one worker too many, no amount of fuel is enough. *)
Lemma deficit_loop_deadlock fuel w :
  deficit_loop fuel distributor flagman_areas
    ([("GIS + MB", 1); ("Chiller Area", 1); ("SSD", 1); ("Gate", 1);
      ("NCC Office", 1); ("Store", 1); ("Supervisors", 1)], -1) w
  = OutOfFuel.
Proof.
  induction fuel as [|fuel IH]; [reflexivity|].
  cbn [deficit_loop snd]. change (-1 <? 0) with true. cbv iota.
  unfold bind at 1. rewrite by_priority_ascending.
  unfold bind at 1.
  match goal with
  | |- context [for_each ?l deficit_body ?st w] =>
      change (for_each l deficit_body st w) with (Ret (st, w))
  end.
  exact IH.
Qed.

(** C10. Under the configured priority table, for every [total >= 7] either
    no base count exists at all ([total - 1] is too large for a float), or the
    base counts of the first pass plus the supervisor's 1 do not exceed
    [total]; then [remaining] is not negative, the over-allocation loop is
    reached with [remaining = 0] and returns at once (it needs no fuel), so
    the state in which it cannot progress is not reached. *)
Theorem over_allocation_unreachable (total : Z) (w : world) :
  7 <= total ->
  (float_int_limit < total /\
   first_pass distributor total w = Raise OverflowError) \/
  (exists d allocated,
     first_pass distributor total w = Ret ((d, allocated), w) /\
     sum (values d) = allocated /\
     0 <= total - (allocated + 1) /\
     forall fuel, (Z.to_nat total <= fuel)%nat ->
       exists d',
         allocate_and_top_up fuel distributor total w
           = Ret ((flagman_areas, (d', 0)), w) /\
         deficit_loop 0 distributor flagman_areas (d', 0) w = Ret ((d', 0), w)).
Proof.
  intros H7. destruct (Z_le_gt_dec total float_int_limit) as [Hle | Hgt].
  - right.
    destruct (first_pass_spec total w (conj H7 Hle)) as ([d a] & Hfirst & _ & Hs & _ & _ & Ha).
    cbn [fst snd] in *. exists d, a. split; [exact Hfirst|]. split; [exact Hs|].
    split; [clear - Ha; lia|].
    intros fuel Hfuel.
    destruct (allocate_and_top_up_spec fuel total w (conj H7 Hle) Hfuel) as (d' & Hd' & _).
    exists d'. split; [exact Hd' | reflexivity].
  - left. split; [apply Z.gt_lt; exact Hgt|]. apply first_pass_overflow.
    apply Z.gt_lt. exact Hgt.
Qed.

Lemma over_allocation_unreachable_witness :
  (float_int_limit < 7 /\
   first_pass distributor 7 sample_world = Raise OverflowError) \/
  (exists d allocated,
     first_pass distributor 7 sample_world = Ret ((d, allocated), sample_world) /\
     sum (values d) = allocated /\
     0 <= 7 - (allocated + 1) /\
     forall fuel, (Z.to_nat 7 <= fuel)%nat ->
       exists d',
         allocate_and_top_up fuel distributor 7 sample_world
           = Ret ((flagman_areas, (d', 0)), sample_world) /\
         deficit_loop 0 distributor flagman_areas (d', 0) sample_world
           = Ret ((d', 0), sample_world)).
Proof.
  apply (over_allocation_unreachable 7 sample_world). lia.
Defined.

(** * Further properties of the code *)

(** ** The report, line by line *)

Lemma append_assoc (a b c : string) : ((a ++ b) ++ c = a ++ (b ++ c))%string.
Proof. induction a as [|ch a IH]; cbn [append]; [reflexivity | rewrite IH; reflexivity]. Qed.

Lemma randbelow_clock n w j w' : randbelow n w = Ret (j, w') -> clock w' = clock w.
Proof.
  unfold randbelow. destruct (rng w); intros [= _ <-]; reflexivity.
Qed.

Lemma shuffle_from_clock {A} n (l l' : list A) w w' :
  shuffle_from n l w = Ret (l', w') -> clock w' = clock w.
Proof.
  revert l l' w w'. induction n as [|n IH]; intros l l' w w'; cbn [shuffle_from].
  - intros [= _ <-]. reflexivity.
  - unfold bind at 1. destruct (randbelow (List.length l) w) as [[j w1] | e |] eqn:Hj;
      try discriminate.
    apply randbelow_clock in Hj.
    destruct (nth_error l j) as [x|]; [|intros [= _ <-]; exact Hj].
    unfold bind. destruct (shuffle_from n (remove_nth j l) w1) as [[rest w2] | e |] eqn:Hr;
      try discriminate.
    apply IH in Hr. intros [= _ <-]. congruence.
Qed.

Lemma pure_tally_body el i d : pure_py (tally_body el i d).
Proof.
  unfold tally_body, int_mod, list_getitem.
  repeat (first [ apply pure_bind; [|intros ?] | apply pure_ret | apply pure_raise
                | match goal with |- pure_py (match ?x with _ => _ end) => destruct x end ]).
Qed.

Lemma pure_returns {A} (m : py A) w a w' : pure_py m -> m w = Ret (a, w') -> w' = w.
Proof.
  intros Hp H. rewrite (Hp w w) in H. destruct (m w) as [[a0 w0] | e |]; cbn in H;
    congruence.
Qed.

(** [get_equipment_assignments] draws numbers, and leaves the clock alone. *)
Lemma get_equipment_assignments_clock self area count w l w' :
  get_equipment_assignments self area count w = Ret (l, w') -> clock w' = clock w.
Proof.
  unfold get_equipment_assignments.
  destruct (String.eqb area "Supervisors"); [intros [= _ <-]; reflexivity|].
  unfold bind at 1. unfold dict_getitem.
  destruct (dict_get (equipment_pools self) area) as [pool|]; [|discriminate].
  unfold ret at 1.
  destruct (String.eqb area "Store"); [intros [= _ <-]; reflexivity|].
  unfold bind at 1. unfold random_shuffle.
  destruct (shuffle_from (List.length pool) pool w) as [[el w1] | e |] eqn:Hs;
    try discriminate.
  apply shuffle_from_clock in Hs. unfold bind.
  destruct (for_each (range count) (tally_body el) [] w1) as [[d w2] | e |] eqn:Ht;
    try discriminate.
  apply pure_returns in Ht; [|apply pure_for_each; intros; apply pure_tally_body].
  intros [= _ <-]. congruence.
Qed.

Lemma report_line_spec total d area report w :
  distribution_post total d -> In area all_areas ->
  exists count l w',
    report_line distributor d area report w
      = Ret ((report ++ render_line (area, count, l))%string, w') /\
    dict_get d area = Some count /\ occurrences l = count /\ clock w' = clock w.
Proof.
  intros (Hk & _ & Hsup & Hv) Hin.
  assert (Hd : In area (keys d)) by (rewrite Hk; exact Hin).
  apply dict_get_keys in Hd as [count Hcount].
  assert (Hline : forall l w',
            get_equipment_assignments distributor area count w = Ret (l, w') ->
            report_line distributor d area report w
              = Ret ((report ++ render_line (area, count, l))%string, w')).
  { intros l w' Hl. unfold report_line. unfold bind at 1. unfold dict_getitem.
    rewrite Hcount. unfold ret at 1. unfold bind. rewrite Hl. reflexivity. }
  destruct (String.eqb_spec area "Supervisors") as [Heq | Hne].
  - exists count, ["General Area"], w. split; [apply Hline; subst area; reflexivity|].
    split; [exact Hcount|]. split; [|reflexivity]. subst area. cbn. congruence.
  - destruct (get_equipment_assignments_spec area count w) as (l & w' & Hl & Hocc);
      [exact Hin | exact Hne | eapply Hv; exact Hcount |].
    exists count, l, w'. split; [apply Hline; exact Hl|].
    split; [exact Hcount|]. split; [exact Hocc|].
    eapply get_equipment_assignments_clock. exact Hl.
Qed.

Lemma report_lines_spec total d areas report w :
  distribution_post total d -> (forall a, In a areas -> In a all_areas) ->
  exists rows w',
    for_each areas (report_line distributor d) report w
      = Ret ((report ++ concat_lines (map render_line rows))%string, w') /\
    map (fun row => fst (fst row)) rows = areas /\
    (forall area count l, In (area, count, l) rows ->
       dict_get d area = Some count /\ occurrences l = count) /\
    clock w' = clock w.
Proof.
  intros Hpost. revert report w. induction areas as [|a areas IH]; intros report w Hin.
  - exists [], w. cbn [for_each map concat_lines].
    split; [|split; [reflexivity | split; [intros ? ? ? [] | reflexivity]]].
    unfold ret. f_equal. f_equal.
    clear. induction report as [|ch r IHr]; [reflexivity | cbn [append]; congruence].
  - destruct (report_line_spec total d a report w Hpost) as (c & l & w1 & H1 & Hc & Ho & Hcl);
      [apply Hin; left; reflexivity|].
    destruct (IH (report ++ render_line (a, c, l))%string w1)
      as (rows & w2 & H2 & Hareas & Hrows & Hcl2);
      [intros b Hb; apply Hin; right; exact Hb|].
    exists ((a, c, l) :: rows), w2. cbn [for_each]. unfold bind. rewrite H1, H2.
    split; [|split; [|split]].
    + cbn [map concat_lines]. rewrite append_assoc. reflexivity.
    + cbn [map fst]. f_equal. exact Hareas.
    + intros area count l' [[= <- <- <-] | Hrow]; [split; assumption | eauto].
    + congruence.
Qed.

Lemma generate_report_lines fuel total w :
  7 <= total <= float_int_limit -> (Z.to_nat total <= fuel)%nat ->
  exists d rows w',
    generate_report fuel distributor total w
      = Ret ((report_header (clock w) ++ concat_lines (map render_line rows)
              ++ report_summary total)%string, w') /\
    distribute_personnel fuel distributor total w = Ret (Some d, w) /\
    map (fun row => fst (fst row)) rows = all_areas /\
    (forall area count l, In (area, count, l) rows ->
       dict_get d area = Some count /\ occurrences l = count) /\
    clock w' = clock w.
Proof.
  intros Ht Hfuel.
  destruct (distribute_personnel_spec total Ht) as (d & Hpost & Hd).
  specialize (Hd fuel w Hfuel).
  unfold generate_report. unfold bind at 1. rewrite Hd.
  pose proof Hpost as (Hk & Hs & Hsup & Hv).
  destruct d as [|item d']; [discriminate|]. cbn [falsy].
  set (d := item :: d') in *.
  unfold bind at 1. unfold datetime_now_strftime.
  unfold bind at 1. unfold dict_getitem at 1. rewrite Hsup. unfold ret at 1.
  match goal with
  | |- context [for_each ?areas (report_line distributor d) ?r] =>
      destruct (report_lines_spec total d areas r w Hpost)
        as (rows & w' & Hr & Hareas & Hrows & Hcl)
  end.
  { intros a Ha. exact Ha. }
  exists d, rows, w'. unfold bind at 1. rewrite Hr.
  unfold bind, dict_getitem. rewrite Hsup. unfold ret.
  split; [|split; [reflexivity | split; [exact Hareas | split; [exact Hrows | exact Hcl]]]].
  f_equal. f_equal. rewrite append_assoc. reflexivity.
Qed.

(** X1. The anatomy of a report. For [7 <= total <= 2 ^ 1024 - 2 ^ 970]
    [generate_report] returns the header with the date of the clock, one
    line for each of the seven areas in the fixed order, and the summary
    with [total], [total - 1] flagmen and 1 supervisor. The count on a line
    is the count of [distribute_personnel] for its area, and the entries
    listed on it stand for that many workers. The clock is left as it was. *)
Theorem generate_report_anatomy (total : Z) (fuel : nat) (w : world) :
  7 <= total <= float_int_limit -> (Z.to_nat total <= fuel)%nat ->
  exists d rows w',
    generate_report fuel distributor total w
      = Ret ((report_header (clock w) ++ concat_lines (map render_line rows)
              ++ report_summary total)%string, w') /\
    distribute_personnel fuel distributor total w = Ret (Some d, w) /\
    map (fun row => fst (fst row)) rows = all_areas /\
    (forall area count l, In (area, count, l) rows ->
       dict_get d area = Some count /\ occurrences l = count) /\
    clock w' = clock w.
Proof. intros Ht Hfuel. apply generate_report_lines; assumption. Qed.

Lemma generate_report_anatomy_witness :
  exists d rows w',
    generate_report 30 distributor 30 sample_world
      = Ret ((report_header (clock sample_world) ++ concat_lines (map render_line rows)
              ++ report_summary 30)%string, w') /\
    distribute_personnel 30 distributor 30 sample_world = Ret (Some d, sample_world) /\
    map (fun row => fst (fst row)) rows = all_areas /\
    (forall area count l, In (area, count, l) rows ->
       dict_get d area = Some count /\ occurrences l = count) /\
    clock w' = clock sample_world.
Proof.
  apply (generate_report_anatomy 30 30 sample_world).
  - split; [lia | apply Z.leb_le; reflexivity].
  - lia.
Defined.

(** ** What the engine raises, and what the transport replies *)

Lemma generate_report_more_fuel fuel fuel' self total w :
  (fuel <= fuel')%nat ->
  generate_report fuel self total w <> OutOfFuel ->
  generate_report fuel' self total w = generate_report fuel self total w.
Proof.
  intros Hle Hfin. unfold generate_report in *. unfold bind at 1 in Hfin.
  unfold bind at 1. unfold bind at 2.
  rewrite (distribute_personnel_more_fuel fuel fuel' self total w Hle); [reflexivity|].
  intros Hout. rewrite Hout in Hfin. apply Hfin. reflexivity.
Qed.

(** X2. [distribute_personnel] and [generate_report] raise nothing but
    [OverflowError], and raise it exactly above [float_int_limit], with any
    fuel. *)
Theorem engine_raises_iff (fuel : nat) (total : Z) (w : world) (e : exn) :
  (distribute_personnel fuel distributor total w = Raise e
   <-> e = OverflowError /\ float_int_limit < total) /\
  (generate_report fuel distributor total w = Raise e
   <-> e = OverflowError /\ float_int_limit < total).
Proof.
  split; (split; [intros Hraise | intros [-> Hbig]]).
  - destruct (Z_lt_le_dec float_int_limit total) as [Hbig | Hsmall].
    + rewrite distribute_personnel_overflow in Hraise by exact Hbig.
      injection Hraise as <-. split; [reflexivity | exact Hbig].
    + exfalso. destruct (Z_lt_le_dec total 7) as [Hlt | Hge].
      * unfold distribute_personnel in Hraise.
        destruct (Z.ltb_spec total 7); [discriminate | lia].
      * destruct (distribute_personnel_spec total (conj Hge Hsmall)) as (d & _ & Hd).
        specialize (Hd (Nat.max fuel (Z.to_nat total)) w (Nat.le_max_r _ _)).
        rewrite (distribute_personnel_more_fuel fuel _ distributor total w
                   (Nat.le_max_l _ _)) in Hd; congruence.
  - apply distribute_personnel_overflow. exact Hbig.
  - destruct (Z_lt_le_dec float_int_limit total) as [Hbig | Hsmall].
    + rewrite generate_report_overflow in Hraise by exact Hbig.
      injection Hraise as <-. split; [reflexivity | exact Hbig].
    + exfalso. destruct (Z_lt_le_dec total 7) as [Hlt | Hge].
      * rewrite generate_report_below in Hraise by exact Hlt. discriminate.
      * destruct (generate_report_from_7 (Nat.max fuel (Z.to_nat total)) total w
                    (conj Hge Hsmall) (Nat.le_max_r _ _)) as (s & w' & Hs).
        rewrite (generate_report_more_fuel fuel _ distributor total w
                   (Nat.le_max_l _ _)) in Hs; congruence.
  - apply generate_report_overflow. exact Hbig.
Qed.

(** X3. With fuel for 200 sweeps [report_command] always replies, and never with
    the message of its [except] branch: the bounds it checks keep the engine
    away from its one exception. From 1 to 200 the reply is what
    [generate_report] returns, the minimum-headcount message up to 6. *)
Theorem report_command_reply
    (int_of_str : string -> option Z) (fuel : nat) (args : list string) (w : world) :
  (200 <= fuel)%nat ->
  exists s,
    report_command int_of_str fuel args w = Ret s /\
    s <> error_message /\
    (forall arg rest n,
       args = arg :: rest -> int_of_str arg = Some n -> 1 <= n <= 200 ->
       (exists w', generate_report fuel distributor n w = Ret (s, w')) /\
       (n <= 6 -> s = apology)).
Proof.
  intros Hfuel. unfold report_command.
  destruct args as [|arg rest].
  { exists usage_message. split; [reflexivity|]. split; [discriminate|]. discriminate. }
  destruct (int_of_str arg) as [n|] eqn:Hparse.
  2:{ exists invalid_number_message. split; [reflexivity|].
      split; [discriminate|]. intros ? ? ? [= <- <-]. congruence. }
  destruct (Z.ltb_spec n 1) as [Hlow | Hlow].
  { exists too_low_message. split; [reflexivity|]. split; [discriminate|].
    intros ? ? ? [= <- <-] Hp. rewrite Hparse in Hp. injection Hp as <-. lia. }
  destruct (Z.ltb_spec 200 n) as [Hhigh | Hhigh].
  { exists too_high_message. split; [reflexivity|]. split; [discriminate|].
    intros ? ? ? [= <- <-] Hp. rewrite Hparse in Hp. injection Hp as <-. lia. }
  pose proof float_int_limit_above as Hlimit.
  destruct (Z_lt_le_dec n 7) as [Hlt | Hge].
  - rewrite generate_report_below by exact Hlt.
    exists apology. split; [reflexivity|]. split; [discriminate|].
    intros ? ? ? [= <- <-] Hp _. rewrite Hparse in Hp. injection Hp as <-. split; [exists w; apply generate_report_below; exact Hlt | reflexivity].
  - destruct (generate_report_lines fuel n w) as (d & rows & w' & Hs & _);
      [lia | lia |].
    rewrite Hs. eexists. split; [reflexivity|]. split; [discriminate|].
    intros ? ? ? [= <- <-] Hp _. rewrite Hparse in Hp. injection Hp as <-. split; [exists w'; exact Hs | lia].
Qed.

Lemma report_command_reply_witness :
  (200 <= 200)%nat /\
  exists s,
    report_command parse_count 200 ["30"] sample_world = Ret s /\
    s <> error_message /\
    (forall arg rest n,
       ["30"] = arg :: rest -> parse_count arg = Some n -> 1 <= n <= 200 ->
       (exists w', generate_report 200 distributor n sample_world = Ret (s, w')) /\
       (n <= 6 -> s = apology)).
Proof.
  split; [lia|]. apply (report_command_reply parse_count 200 ["30"] sample_world). lia.
Defined.

(** ** get_equipment_assignments, whatever the catalog *)




(** ** The tally, in closed form *)

Lemma for_each_app {A S} (l l' : list A) (body : A -> S -> py S) (s : S) w :
  for_each (l ++ l') body s w = bind (for_each l body s) (for_each l' body) w.
Proof.
  revert s w. induction l as [|x l IH]; intros s w.
  - reflexivity.
  - rewrite <- app_comm_cons. cbn [for_each]. unfold bind.
    destruct (body x s w) as [[s1 w1] | e |]; [rewrite IH | ..]; reflexivity.
Qed.

Lemma held_succ len n j :
  (0 < len)%nat -> (j < len)%nat ->
  held len (S n) j = held len n j + (if (j =? n mod len)%nat then 1 else 0).
Proof.
  intros Hlen Hj. unfold held.
  pose proof (Nat.div_mod_eq n len) as Hn.
  pose proof (Nat.mod_upper_bound n len ltac:(lia)) as Hr.
  destruct (Nat.eq_dec (S (n mod len)) len) as [Hwrap | Hstay].
  - assert (Hq : (S n / len = S (n / len))%nat).
    { symmetry. apply (Nat.div_unique (S n) len (S (n / len)) 0); nia. }
    assert (Hm : (S n mod len = 0)%nat).
    { symmetry. apply (Nat.mod_unique (S n) len (S (n / len)) 0); nia. }
    rewrite Hq, Hm.
    destruct (Nat.ltb_spec j 0); [lia|].
    destruct (Nat.ltb_spec j (n mod len)); destruct (Nat.eqb_spec j (n mod len)); lia.
  - assert (Hq : (S n / len = n / len)%nat).
    { symmetry. apply (Nat.div_unique (S n) len (n / len) (S (n mod len))); nia. }
    assert (Hm : (S n mod len = S (n mod len))%nat).
    { symmetry. apply (Nat.mod_unique (S n) len (n / len) (S (n mod len))); nia. }
    rewrite Hq, Hm.
    destruct (Nat.ltb_spec j (S (n mod len))); destruct (Nat.ltb_spec j (n mod len));
      destruct (Nat.eqb_spec j (n mod len)); lia.
Qed.

Section ClosedForm.

Variable equipment_list : list string.
Hypothesis distinct : NoDup equipment_list.

Lemma item_inj i j :
  (i < List.length equipment_list)%nat -> (j < List.length equipment_list)%nat ->
  nth i equipment_list EmptyString = nth j equipment_list EmptyString -> i = j.
Proof.
  intros Hi Hj Heq. exact (proj1 (NoDup_nth equipment_list EmptyString) distinct i j Hi Hj Heq).
Qed.

Lemma dict_get_items_out (f : nat -> Z) js i :
  (forall j, In j js -> (j < List.length equipment_list)%nat) ->
  (i < List.length equipment_list)%nat -> ~ In i js ->
  dict_get (map (fun j => (nth j equipment_list EmptyString, f j)) js) (nth i equipment_list EmptyString) = None.
Proof.
  intros Hjs Hi Hout. induction js as [|j js IH]; [reflexivity|].
  cbn [map dict_get].
  destruct (String.eqb_spec (nth j equipment_list EmptyString) (nth i equipment_list EmptyString)) as [Heq | Hne].
  - apply item_inj in Heq; [| apply Hjs; left; reflexivity | exact Hi].
    exfalso. apply Hout. left. exact Heq.
  - apply IH; [intros k Hk; apply Hjs; right; exact Hk |].
    intros Hin. apply Hout. right. exact Hin.
Qed.

Lemma dict_get_items_in (f : nat -> Z) js i :
  (forall j, In j js -> (j < List.length equipment_list)%nat) -> In i js ->
  dict_get (map (fun j => (nth j equipment_list EmptyString, f j)) js) (nth i equipment_list EmptyString) = Some (f i).
Proof.
  intros Hjs Hin. induction js as [|j js IH]; [contradiction|].
  cbn [map dict_get].
  destruct (String.eqb_spec (nth j equipment_list EmptyString) (nth i equipment_list EmptyString)) as [Heq | Hne].
  - apply item_inj in Heq; [subst j; reflexivity | apply Hjs; left; reflexivity |].
    apply Hjs. exact Hin.
  - destruct Hin as [-> | Hin]; [congruence|].
    apply IH; [intros k Hk; apply Hjs; right; exact Hk | exact Hin].
Qed.

Lemma dict_setitem_items_out (f : nat -> Z) js i v :
  (forall j, In j js -> (j < List.length equipment_list)%nat) ->
  (i < List.length equipment_list)%nat -> ~ In i js ->
  dict_setitem (map (fun j => (nth j equipment_list EmptyString, f j)) js) (nth i equipment_list EmptyString) v
  = map (fun j => (nth j equipment_list EmptyString, f j)) js ++ [(nth i equipment_list EmptyString, v)].
Proof.
  intros Hjs Hi Hout. induction js as [|j js IH]; [reflexivity|].
  cbn [map dict_setitem]. rewrite <- app_comm_cons.
  destruct (String.eqb_spec (nth j equipment_list EmptyString) (nth i equipment_list EmptyString)) as [Heq | Hne].
  - apply item_inj in Heq; [| apply Hjs; left; reflexivity | exact Hi].
    exfalso. apply Hout. left. exact Heq.
  - f_equal. apply IH; [intros k Hk; apply Hjs; right; exact Hk |].
    intros Hin. apply Hout. right. exact Hin.
Qed.

Lemma dict_setitem_items_in (f : nat -> Z) js i v :
  (forall j, In j js -> (j < List.length equipment_list)%nat) -> NoDup js -> In i js ->
  dict_setitem (map (fun j => (nth j equipment_list EmptyString, f j)) js) (nth i equipment_list EmptyString) v
  = map (fun j => (nth j equipment_list EmptyString, if (j =? i)%nat then v else f j)) js.
Proof.
  intros Hjs Hnd Hin. induction js as [|j js IH]; [contradiction|].
  cbn [map dict_setitem]. apply NoDup_cons_iff in Hnd as [Hfresh Hnd].
  destruct (String.eqb_spec (nth j equipment_list EmptyString) (nth i equipment_list EmptyString)) as [Heq | Hne].
  - apply item_inj in Heq; [| apply Hjs; left; reflexivity | apply Hjs; exact Hin].
    subst j. rewrite Nat.eqb_refl. f_equal. apply map_ext_in. intros k Hk.
    destruct (Nat.eqb_spec k i) as [-> | _]; [contradiction | reflexivity].
  - destruct Hin as [-> | Hin]; [congruence|].
    destruct (Nat.eqb_spec j i) as [-> | _]; [congruence|]. f_equal.
    apply IH; [intros k Hk; apply Hjs; right; exact Hk | exact Hnd | exact Hin].
Qed.

Hypothesis nonempty : equipment_list <> [].

Lemma tally_body_closed n w :
  tally_body equipment_list (Z.of_nat n) (expected_tally equipment_list n) w
  = Ret (expected_tally equipment_list (S n), w).
Proof.
  set (len := List.length equipment_list).
  assert (Hlen : (0 < len)%nat)
    by (subst len; destruct equipment_list; [congruence | cbn [List.length]; lia]).
  pose proof (Nat.mod_upper_bound n len ltac:(lia)) as Hr.
  unfold tally_body, int_mod. fold len.
  destruct (Z.eqb_spec (Z.of_nat len) 0) as [|_]; [lia|].
  unfold bind at 1. unfold ret at 1. unfold list_getitem.
  replace (Z.to_nat (Z.of_nat n mod Z.of_nat len)) with (n mod len)%nat
    by (rewrite <- Nat2Z.inj_mod; symmetry; apply Nat2Z.id).
  rewrite (nth_error_nth' equipment_list EmptyString) by exact Hr.
  unfold bind, ret. f_equal. f_equal.
  unfold expected_tally. fold len.
  assert (Hseq : forall m j, In j (seq 0 (Nat.min m len)) -> (j < len)%nat).
  { intros m j Hj. apply in_seq in Hj. lia. }
  destruct (Nat.lt_ge_cases n len) as [Hsmall | Hfull].
  - rewrite (Nat.mod_small n len Hsmall).
    replace (Nat.min n len) with n in * by lia.
    replace (Nat.min (S n) len) with (S n) by lia.
    unfold dict_get_default.
    rewrite dict_get_items_out, dict_setitem_items_out;
      try (intros j Hj; apply in_seq in Hj; lia); try exact Hsmall;
      try (intros Hj; apply in_seq in Hj; lia).
    rewrite seq_S, map_app. cbn [map Nat.add]. f_equal.
    + apply map_ext_in. intros j Hj. apply in_seq in Hj.
      rewrite held_succ by lia. rewrite (Nat.mod_small n len Hsmall).
      destruct (Nat.eqb_spec j n); [lia|]. f_equal. lia.
    + f_equal. f_equal. rewrite held_succ by lia. rewrite (Nat.mod_small n len Hsmall).
      rewrite Nat.eqb_refl. unfold held. rewrite Nat.div_small, Nat.mod_small by exact Hsmall.
      rewrite Nat.ltb_irrefl. reflexivity.
  - replace (Nat.min n len) with len by lia.
    replace (Nat.min (S n) len) with len by lia.
    assert (Hin : In (n mod len)%nat (seq 0 len)) by (apply in_seq; lia).
    unfold dict_get_default.
    rewrite dict_get_items_in, dict_setitem_items_in;
      try (intros j Hj; apply in_seq in Hj; lia); try exact Hin; try apply seq_NoDup.
    apply map_ext_in. intros j Hj. apply in_seq in Hj. f_equal.
    rewrite held_succ by lia.
    destruct (Nat.eqb_spec j (n mod len)) as [-> | _]; lia.
Qed.

Lemma tally_closed n w :
  for_each (range (Z.of_nat n)) (tally_body equipment_list) [] w
  = Ret (expected_tally equipment_list n, w).
Proof.
  unfold range. rewrite Nat2Z.id. induction n as [|n IH]; [reflexivity|].
  rewrite seq_S, map_app, for_each_app. unfold bind at 1. rewrite IH.
  cbn [map for_each Nat.add]. unfold bind. rewrite tally_body_closed. reflexivity.
Qed.

End ClosedForm.

(** X5. The distribution of round-robin assignment: over a shuffled pool of
    distinct names, the name at position [j] is listed when [j < count], for
    [count / len] workers and one more when [j < count mod len]. *)
Theorem get_equipment_assignments_round_robin
    (self : FlagmanDistributor) (area : string) (pool : list string) (count : Z)
    (w : world) :
  area <> "Supervisors" -> area <> "Store" ->
  dict_get (equipment_pools self) area = Some pool ->
  pool <> [] -> NoDup pool ->
  exists equipment_list w',
    Permutation pool equipment_list /\
    get_equipment_assignments self area count w
    = Ret (map format_assignment (expected_tally equipment_list (Z.to_nat count)), w') /\
    List.length (expected_tally equipment_list (Z.to_nat count))
    = Nat.min (Z.to_nat count) (List.length pool).
Proof.
  intros Hsup Hstore Hpool Hne Hnd. unfold get_equipment_assignments.
  destruct (String.eqb_spec area "Supervisors") as [|_]; [contradiction|].
  unfold bind at 1. unfold dict_getitem. rewrite Hpool. unfold ret at 1.
  destruct (String.eqb_spec area "Store") as [|_]; [contradiction|].
  destruct (random_shuffle_spec pool w) as (el & w1 & Hshuffle & Hperm).
  exists el, w1. split; [exact Hperm|].
  unfold bind at 1. rewrite Hshuffle.
  assert (Hnd' : NoDup el) by (eapply Permutation_NoDup; eassumption).
  assert (Hne' : el <> []).
  { intros ->. apply Permutation_sym, Permutation_nil in Hperm. contradiction. }
  split.
  - destruct (Z_lt_le_dec count 0) as [Hneg | Hpos].
    + unfold range. replace (Z.to_nat count) with 0%nat by lia. reflexivity.
    + unfold bind. rewrite <- (Z2Nat.id count Hpos) at 1.
      rewrite (tally_closed el Hnd' Hne'). reflexivity.
  - unfold expected_tally. rewrite length_map, length_seq.
    rewrite (Permutation_length Hperm). reflexivity.
Qed.

Lemma get_equipment_assignments_round_robin_witness :
  "SSD" <> "Supervisors" /\ "SSD" <> "Store" /\
  dict_get (equipment_pools distributor) "SSD"
  = Some ["Hydra"; "JCB"; "Cocklain"; "Unicrane"; "Excavator"; "Main Lift"; "Compactor"] /\
  exists equipment_list w',
    Permutation ["Hydra"; "JCB"; "Cocklain"; "Unicrane"; "Excavator"; "Main Lift"; "Compactor"]
                equipment_list /\
    get_equipment_assignments distributor "SSD" 10 sample_world
    = Ret (map format_assignment (expected_tally equipment_list (Z.to_nat 10)), w') /\
    List.length (expected_tally equipment_list (Z.to_nat 10))
    = Nat.min (Z.to_nat 10)
        (List.length ["Hydra"; "JCB"; "Cocklain"; "Unicrane"; "Excavator"; "Main Lift";
                      "Compactor"]).
Proof.
  split; [discriminate|]. split; [discriminate|]. split; [reflexivity|].
  apply (get_equipment_assignments_round_robin distributor "SSD"); try discriminate.
  - reflexivity.
  - repeat (constructor; [cbn; intuition discriminate|]). constructor.
Defined.

(** ** The surplus, area by area *)

Lemma surplus_sweep_shares order d r w :
  NoDup order -> (forall a, In a order -> In a (keys d)) -> 0 <= r ->
  exists d',
    for_each order surplus_body (d, r) w
      = Ret ((d', Z.max 0 (r - Z.of_nat (List.length order))), w) /\
    keys d' = keys d /\
    (forall k, ~ In k order -> dict_get d' k = dict_get d k) /\
    (forall j a c, nth_error order j = Some a -> dict_get d a = Some c ->
       dict_get d' a = Some (c + (if Z.of_nat j <? r then 1 else 0))).
Proof.
  revert d r. induction order as [|a order IH]; intros d r Hnd Hin Hr.
  - exists d. cbn [for_each List.length]. replace (Z.max 0 (r - Z.of_nat 0)) with r by lia.
    split; [reflexivity|]. split; [reflexivity|]. split; [reflexivity|].
    intros [|j] ? ? [=].
  - apply NoDup_cons_iff in Hnd as [Hfresh Hnd].
    assert (Ha : In a (keys d)) by (apply Hin; left; reflexivity).
    apply dict_get_keys in Ha as Hget. destruct Hget as [c0 Hc0].
    set (d1 := if 0 <? r then dict_setitem d a (c0 + 1) else d).
    assert (Hstep : surplus_body a (d, r) w = Ret ((d1, Z.max 0 (r - 1)), w)).
    { unfold surplus_body, d1. destruct (Z.ltb_spec 0 r).
      - unfold bind, dict_getitem. rewrite Hc0. unfold ret.
        replace (Z.max 0 (r - 1)) with (r - 1) by lia. reflexivity.
      - replace (Z.max 0 (r - 1)) with r by lia. reflexivity. }
    assert (Hk1 : keys d1 = keys d).
    { unfold d1. destruct (0 <? r); [apply keys_setitem; exact Ha | reflexivity]. }
    assert (Hget1 : forall k, dict_get d1 k
                      = if (0 <? r) && String.eqb a k then Some (c0 + 1) else dict_get d k).
    { intros k. unfold d1. destruct (0 <? r); [apply dict_get_setitem | reflexivity]. }
    destruct (IH d1 (Z.max 0 (r - 1)) Hnd) as (d2 & Hrest & Hk2 & Hout & Hshare); [| lia |].
    { intros b Hb. rewrite Hk1. apply Hin. right. exact Hb. }
    exists d2. cbn [for_each]. unfold bind. rewrite Hstep.
    replace (Z.max 0 (r - Z.of_nat (List.length (a :: order))))
      with (Z.max 0 (Z.max 0 (r - 1) - Z.of_nat (List.length order)))
      by (cbn [List.length]; lia).
    split; [exact Hrest|]. split; [congruence|]. split.
    + intros k Hk. rewrite Hout by (intros Hk'; apply Hk; right; exact Hk').
      rewrite Hget1. destruct (String.eqb_spec a k) as [-> | _].
      * exfalso. apply Hk. left. reflexivity.
      * rewrite andb_false_r. reflexivity.
    + intros [|j] b c Hj Hc; cbn [nth_error] in Hj.
      * injection Hj as <-. rewrite Hout by exact Hfresh. rewrite Hget1.
        rewrite String.eqb_refl, andb_true_r. rewrite Hc0 in Hc. injection Hc as <-.
        change (Z.of_nat 0) with 0. destruct (0 <? r); cbn [andb]; [reflexivity | rewrite Hc0; f_equal; lia].
      * assert (Hb : In b order) by (eapply nth_error_In; exact Hj).
        assert (Hc1 : dict_get d1 b = Some c).
        { rewrite Hget1. destruct (String.eqb_spec a b) as [-> | _]; [contradiction|].
          rewrite andb_false_r. exact Hc. }
        rewrite (Hshare j b c Hj Hc1). f_equal. f_equal.
        destruct (Z.ltb_spec (Z.of_nat j) (Z.max 0 (r - 1)));
          destruct (Z.ltb_spec (Z.of_nat (S j)) r); lia.
Qed.

Lemma descending_distinct : NoDup descending.
Proof.
  unfold descending. repeat (constructor; [cbn; intuition discriminate|]). constructor.
Qed.

Lemma gain_step r j :
  0 < r -> (j < 6)%nat ->
  gain r j = (if Z.of_nat j <? r then 1 else 0) + gain (Z.max 0 (r - 6)) j.
Proof.
  intros Hr Hj. unfold gain.
  destruct (Z.ltb_spec (Z.of_nat j) r);
    destruct (Z.ltb_spec (Z.of_nat j) (r mod 6));
    destruct (Z.ltb_spec (Z.of_nat j) (Z.max 0 (r - 6) mod 6));
    Z.div_mod_to_equations; lia.
Qed.

Lemma surplus_loop_exact fuel d r w :
  keys d = all_areas -> 0 <= r <= Z.of_nat fuel ->
  exists d',
    surplus_loop fuel distributor flagman_areas (d, r) w = Ret ((d', 0), w) /\
    keys d' = all_areas /\
    dict_get d' "Supervisors" = dict_get d "Supervisors" /\
    (forall j area c, nth_error descending j = Some area -> dict_get d area = Some c ->
       dict_get d' area = Some (c + gain r j)).
Proof.
  revert d r. induction fuel as [|fuel IH]; intros d r Hk Hr.
  - assert (r = 0) by lia. subst r. exists d.
    split; [reflexivity|]. split; [exact Hk|]. split; [reflexivity|].
    intros j area c _ Hc. rewrite Hc. f_equal. unfold gain. cbn.
    destruct (Z.ltb_spec (Z.of_nat j) 0); lia.
  - cbn [surplus_loop snd]. destruct (Z.ltb_spec 0 r) as [Hpos | Hzero].
    + unfold bind at 1. rewrite by_priority_descending. fold descending.
      destruct (surplus_sweep_shares descending d r w) as (d1 & Hsweep & Hk1 & Hout & Hshare);
        [exact descending_distinct | | lia |].
      { intros a Ha. rewrite Hk. unfold descending, all_areas in *. cbn [In] in *.
        intuition (subst; auto). }
      unfold bind. rewrite Hsweep.
      destruct (IH d1 (Z.max 0 (r - Z.of_nat (List.length descending))))
        as (d2 & Hloop & Hk2 & Hsup & Hgain); [congruence | cbn [List.length descending]; lia |].
      exists d2. split; [exact Hloop|]. split; [exact Hk2|]. split.
      * rewrite Hsup. apply Hout. cbn. intuition discriminate.
      * intros j area c Hj Hc.
        assert (Hlt : (j < 6)%nat).
        { change 6%nat with (List.length descending). apply nth_error_Some. congruence. }
        rewrite (Hgain j area _ Hj (Hshare j area c Hj Hc)). f_equal.
        rewrite (gain_step r j Hpos Hlt). cbn [List.length descending]. 
        change (Z.of_nat 6) with 6. lia.
    + assert (r = 0) by lia. subst r. exists d.
      split; [reflexivity|]. split; [exact Hk|]. split; [reflexivity|].
      intros j area c _ Hc. rewrite Hc. f_equal. unfold gain. cbn.
      destruct (Z.ltb_spec (Z.of_nat j) 0); lia.
Qed.

Lemma dict_ext {V} (d d' : dict V) :
  keys d = keys d' -> NoDup (keys d) ->
  (forall k, In k (keys d) -> dict_get d k = dict_get d' k) -> d = d'.
Proof.
  revert d'. induction d as [|[k v] d IH]; intros [|[k' v'] d'] Hk Hnd Hget;
    try discriminate; [reflexivity|].
  cbn [keys map fst] in Hk. injection Hk as <- Hk.
  apply NoDup_cons_iff in Hnd as [Hfresh Hnd].
  pose proof (Hget k (or_introl eq_refl)) as Hhead. cbn [dict_get] in Hhead.
  rewrite String.eqb_refl in Hhead. injection Hhead as <-. f_equal.
  apply IH; [exact Hk | exact Hnd |].
  intros k0 Hk0. specialize (Hget k0 (or_intror Hk0)). cbn [dict_get] in Hget.
  destruct (String.eqb_spec k k0) as [-> | _]; [contradiction | exact Hget].
Qed.

Lemma values_keys (d : dict Z) :
  NoDup (keys d) -> values d = map (fun k => dict_get_default d k 0) (keys d).
Proof.
  induction d as [|[k v] d IH]; intros Hnd; [reflexivity|].
  cbn [keys map fst] in Hnd. apply NoDup_cons_iff in Hnd as [Hfresh Hnd].
  cbn [values keys map fst snd]. f_equal.
  - unfold dict_get_default. cbn [dict_get]. rewrite String.eqb_refl. reflexivity.
  - unfold values, keys in IH. rewrite (IH Hnd). apply map_ext_in. intros k0 Hk0.
    unfold dict_get_default. cbn [dict_get].
    destruct (String.eqb_spec k k0) as [-> | _]; [contradiction | reflexivity].
Qed.

(** The distribution is the first pass plus the surplus dealt in rounds. *)
Lemma distribute_personnel_shares fuel total w :
  7 <= total <= float_int_limit -> (Z.to_nat total <= fuel)%nat ->
  exists base d,
    first_pass distributor total w = Ret ((base, sum (values base)), w) /\
    distribute_personnel fuel distributor total w = Ret (Some d, w) /\
    keys base = flagman_areas /\ keys d = all_areas /\
    dict_get d "Supervisors" = Some 1 /\
    0 <= total - 1 - sum (values base) /\
    (forall j area c, nth_error descending j = Some area -> dict_get base area = Some c ->
       dict_get d area = Some (c + gain (total - 1 - sum (values base)) j)).
Proof.
  intros Ht Hfuel.
  destruct (first_pass_spec total w Ht) as ([d0 a] & Hfirst & Hk0 & Hs0 & Hv0 & Ha0 & Ha).
  destruct Ht as [Ht _]. cbn [fst snd] in *. subst a.
  assert (Hnew : ~ In "Supervisors" (keys d0)).
  { rewrite Hk0. cbn. intuition discriminate. }
  set (d1 := dict_setitem d0 "Supervisors" 1).
  assert (Hk1 : keys d1 = all_areas)
    by (unfold d1; rewrite keys_setitem_new, Hk0 by exact Hnew; reflexivity).
  destruct (surplus_loop_exact fuel d1 (total - (sum (values d0) + 1)) w Hk1)
    as (d2 & Hloop & Hk2 & Hsup & Hgain); [lia|].
  exists d0, d2. split; [exact Hfirst|]. split.
  { unfold distribute_personnel. destruct (Z.ltb_spec total 7) as [|_]; [lia|].
    unfold bind at 1. unfold allocate_and_top_up, bind at 1. rewrite Hfirst. fold d1.
    change (removelast (keys (area_priorities distributor))) with flagman_areas.
    unfold bind at 1. rewrite Hloop. unfold ret at 1.
    unfold bind. rewrite deficit_loop_idle. reflexivity. }
  split; [exact Hk0|]. split; [exact Hk2|]. split.
  { rewrite Hsup. unfold d1. rewrite dict_get_setitem. reflexivity. }
  split; [lia|].
  intros j area c Hj Hc.
  replace (total - 1 - sum (values d0)) with (total - (sum (values d0) + 1)) by lia.
  apply Hgain; [exact Hj|]. unfold d1. rewrite dict_get_setitem.
  destruct (String.eqb_spec "Supervisors" area) as [<- | _]; [|exact Hc].
  exfalso. apply Hnew. apply dict_get_keys. exists c. exact Hc.
Qed.

Lemma all_areas_distinct : NoDup all_areas.
Proof.
  unfold all_areas. repeat (constructor; [cbn; intuition discriminate|]). constructor.
Qed.

Lemma first_pass_shares total w base a area :
  7 <= total <= 2000 ->
  first_pass distributor total w = Ret ((base, a), w) ->
  In area descending ->
  dict_get base area = Some (share_base_count distributor (priority_of area) total).
Proof.
  intros Ht Hfirst Hin.
  pose proof (base_counts_checked total Ht) as Hc. unfold base_counts_check in Hc.
  rewrite (pure_first_pass distributor total sample_world w), Hfirst in Hc.
  cbn [attach] in Hc. rewrite forallb_forall in Hc.
  specialize (Hc (area, priority_of area)).
  assert (Hitem : In (area, priority_of area) (items (area_priorities distributor))).
  { unfold descending in Hin. cbn [In] in Hin.
    repeat (destruct Hin as [<- | Hin]; [cbn; tauto|]). contradiction. }
  specialize (Hc Hitem). cbn [fst snd] in Hc. apply orb_true_iff in Hc as [Hs | Hc].
  - apply String.eqb_eq in Hs. subst area. cbn in Hin. intuition discriminate.
  - destruct (dict_get base area) as [c|]; [|discriminate].
    apply Z.eqb_eq in Hc. rewrite Hc. reflexivity.
Qed.

Lemma dict_get_shares_from total areas j0 j area :
  NoDup areas -> nth_error areas j = Some area ->
  dict_get (shares_from total j0 areas ++ [("Supervisors", 1)]) area
  = Some (share_base_count distributor (priority_of area) total
          + gain (surplus total) (j0 + j)).
Proof.
  revert j0 j. induction areas as [|a areas IH]; intros j0 j Hnd Hj.
  - destruct j; discriminate.
  - apply NoDup_cons_iff in Hnd as [Hfresh Hnd].
    cbn [shares_from]. rewrite <- app_comm_cons. cbn [dict_get].
    destruct j as [|j]; cbn [nth_error] in Hj.
    + injection Hj as <-. rewrite String.eqb_refl, Nat.add_0_r. reflexivity.
    + destruct (String.eqb_spec a area) as [-> | _].
      * exfalso. apply Hfresh. eapply nth_error_In. exact Hj.
      * rewrite (IH (S j0) j Hnd Hj).
        replace (S j0 + j)%nat with (j0 + S j)%nat by lia. reflexivity.
Qed.

Lemma keys_shares_from total areas j0 : keys (shares_from total j0 areas) = areas.
Proof.
  revert j0. induction areas as [|a areas IH]; intros j0; [reflexivity|].
  cbn [shares_from keys map fst]. f_equal. apply IH.
Qed.

(** The distribution in closed form, up to 2000. *)
Lemma distribute_personnel_expected fuel total w :
  7 <= total <= 2000 -> (Z.to_nat total <= fuel)%nat ->
  distribute_personnel fuel distributor total w
    = Ret (Some (expected_distribution total), w) /\
  0 <= surplus total.
Proof.
  intros Ht Hfuel. pose proof float_int_limit_above as Hlimit.
  destruct (distribute_personnel_shares fuel total w) as
    (base & d & Hfirst & Hd & Hkb & Hkd & Hsup & Hpos & Hgain); [lia | exact Hfuel |].
  pose proof descending_distinct as Hnd.
  assert (Hsur : total - 1 - sum (values base) = surplus total).
  { unfold surplus. f_equal. rewrite values_keys by (rewrite Hkb; exact Hnd).
    rewrite Hkb. f_equal. apply map_ext_in. intros area Hin.
    unfold dict_get_default.
    rewrite (first_pass_shares total w base _ area Ht Hfirst Hin). reflexivity. }
  split; [|rewrite <- Hsur; exact Hpos].
  rewrite Hd. f_equal. f_equal. f_equal. apply dict_ext.
  - rewrite Hkd. unfold expected_distribution, keys. rewrite map_app.
    fold (keys (shares_from total 0 descending)). rewrite keys_shares_from. reflexivity.
  - rewrite Hkd. exact all_areas_distinct.
  - intros k Hk. rewrite Hkd in Hk. change all_areas with (descending ++ ["Supervisors"]) in Hk.
    apply in_app_or in Hk as [Hk | [<- | []]].
    + destruct (In_nth_error _ _ Hk) as [j Hj].
      unfold expected_distribution. rewrite (dict_get_shares_from total descending 0 j k Hnd Hj).
      rewrite (Hgain j k _ Hj (first_pass_shares total w base _ k Ht Hfirst Hk)).
      rewrite Hsur. reflexivity.
    + rewrite Hsup. reflexivity.
Qed.

Lemma gain_antitone r i j : 0 <= r -> (i <= j)%nat -> 0 <= gain r j <= gain r i.
Proof.
  intros Hr Hij. unfold gain.
  destruct (Z.ltb_spec (Z.of_nat i) (r mod 6)); destruct (Z.ltb_spec (Z.of_nat j) (r mod 6));
    Z.div_mod_to_equations; lia.
Qed.

Lemma share_base_count_monotone p q total :
  p <= q -> 1 <= total ->
  1 <= share_base_count distributor p total <= share_base_count distributor q total.
Proof.
  intros Hpq Ht. unfold share_base_count.
  change (sum (values (area_priorities distributor))) with 30.
  assert (p * (total - 1) / 30 <= q * (total - 1) / 30)
    by (apply Z.div_le_mono; [lia | nia]).
  lia.
Qed.

Lemma descending_priorities i j a b :
  (i <= j)%nat -> nth_error descending i = Some a -> nth_error descending j = Some b ->
  priority_of b <= priority_of a.
Proof.
  intros Hij Hi Hj.
  assert (Hi6 : (i < 6)%nat)
    by (change 6%nat with (List.length descending); apply nth_error_Some; congruence).
  assert (Hj6 : (j < 6)%nat)
    by (change 6%nat with (List.length descending); apply nth_error_Some; congruence).
  destruct i as [|[|[|[|[|[|i]]]]]]; try lia;
    destruct j as [|[|[|[|[|[|j]]]]]]; try lia;
    cbn in Hi, Hj; injection Hi as <-; injection Hj as <-;
    vm_compute; discriminate.
Qed.

(** ** The distribution, area by area *)

(** X6. The surplus loop deals [remaining] in rounds over the flagman areas,
    from the highest priority down: the area at position [j] of that order
    gains [remaining / 6], and one more when [j < remaining mod 6]; the
    supervisors gain nothing. *)
Theorem surplus_loop_deals (fuel : nat) (d : dict Z) (remaining : Z) (w : world) :
  keys d = all_areas -> 0 <= remaining <= Z.of_nat fuel ->
  exists d',
    surplus_loop fuel distributor flagman_areas (d, remaining) w = Ret ((d', 0), w) /\
    keys d' = all_areas /\
    dict_get d' "Supervisors" = dict_get d "Supervisors" /\
    (forall j area c, nth_error descending j = Some area -> dict_get d area = Some c ->
       dict_get d' area = Some (c + gain remaining j)).
Proof. intros Hk Hr. apply surplus_loop_exact; assumption. Qed.

Lemma surplus_loop_deals_witness :
  exists d',
    surplus_loop 8 distributor flagman_areas
      ([("GIS + MB", 5); ("Chiller Area", 4); ("SSD", 3); ("Gate", 2);
        ("NCC Office", 2); ("Store", 1); ("Supervisors", 1)], 8) sample_world
    = Ret ((d', 0), sample_world) /\
    keys d' = all_areas /\
    dict_get d' "Supervisors"
    = dict_get [("GIS + MB", 5); ("Chiller Area", 4); ("SSD", 3); ("Gate", 2);
                ("NCC Office", 2); ("Store", 1); ("Supervisors", 1)] "Supervisors" /\
    (forall j area c,
       nth_error descending j = Some area ->
       dict_get [("GIS + MB", 5); ("Chiller Area", 4); ("SSD", 3); ("Gate", 2);
                 ("NCC Office", 2); ("Store", 1); ("Supervisors", 1)] area = Some c ->
       dict_get d' area = Some (c + gain 8 j)).
Proof.
  apply (surplus_loop_deals 8
           [("GIS + MB", 5); ("Chiller Area", 4); ("SSD", 3); ("Gate", 2);
            ("NCC Office", 2); ("Store", 1); ("Supervisors", 1)] 8 sample_world).
  - reflexivity.
  - lia.
Defined.

(** X7. The distribution in closed form. From 7 to 2000 workers
    [distribute_personnel] returns [expected_distribution]: each flagman
    area gets its share by weight, [max 1 (weight * (total - 1) / 30)], the
    workers left over are dealt in rounds from the highest priority down,
    and the supervisors get one. *)
Theorem distribute_personnel_closed_form (total : Z) (fuel : nat) (w : world) :
  7 <= total <= 2000 -> (Z.to_nat total <= fuel)%nat ->
  distribute_personnel fuel distributor total w
  = Ret (Some (expected_distribution total), w).
Proof. intros Ht Hfuel. apply distribute_personnel_expected; assumption. Qed.

Lemma distribute_personnel_closed_form_witness :
  distribute_personnel 200 distributor 200 sample_world
  = Ret (Some (expected_distribution 200), sample_world).
Proof. apply (distribute_personnel_closed_form 200 200 sample_world); lia. Defined.

(** X8. No area gets more workers than an area before it in the order of the
    priority table, which is the order of the weights: from 7 to 2000
    workers the counts never increase along [all_areas]. *)
Theorem distribution_follows_priority
    (total : Z) (fuel : nat) (w : world) (i j : nat) (a b : string) :
  7 <= total <= 2000 -> (Z.to_nat total <= fuel)%nat ->
  (i <= j)%nat -> nth_error all_areas i = Some a -> nth_error all_areas j = Some b ->
  exists d ca cb,
    distribute_personnel fuel distributor total w = Ret (Some d, w) /\
    dict_get d a = Some ca /\ dict_get d b = Some cb /\ cb <= ca.
Proof.
  intros Ht Hfuel Hij Ha Hb.
  destruct (distribute_personnel_expected fuel total w Ht Hfuel) as [Hd Hsur].
  pose proof descending_distinct as Hnd.
  exists (expected_distribution total). rewrite Hd.
  assert (Hflag : forall k area, nth_error descending k = Some area ->
            dict_get (expected_distribution total) area
            = Some (share_base_count distributor (priority_of area) total
                    + gain (surplus total) k)).
  { intros k area Hk. unfold expected_distribution.
    rewrite (dict_get_shares_from total descending 0 k area Hnd Hk). reflexivity. }
  assert (Hsplit : forall k area, nth_error all_areas k = Some area ->
            nth_error descending k = Some area \/ (k = 6%nat /\ area = "Supervisors")).
  { intros k area Hk. unfold all_areas, descending in *.
    do 7 (destruct k as [|k]; [injection Hk as <-; cbn; auto|]).
    destruct k; discriminate. }
  assert (Hlen : forall k area, nth_error descending k = Some area -> (k < 6)%nat).
  { intros k area Hk. change 6%nat with (List.length descending).
    apply nth_error_Some. congruence. }
  destruct (Hsplit j b Hb) as [Hjb | [-> ->]].
  - destruct (Hsplit i a Ha) as [Hia | [-> ->]]; [|apply Hlen in Hjb; lia].
    eexists. eexists. split; [reflexivity|].
    split; [apply Hflag; exact Hia|]. split; [apply Hflag; exact Hjb|].
    pose proof (gain_antitone (surplus total) i j Hsur Hij).
    pose proof (share_base_count_monotone (priority_of b) (priority_of a) total
                  (descending_priorities i j a b Hij Hia Hjb)). lia.
  - destruct (Hsplit i a Ha) as [Hia | [_ ->]].
    + eexists. eexists. split; [reflexivity|].
      split; [apply Hflag; exact Hia|]. split; [reflexivity|].
      pose proof (gain_antitone (surplus total) i i Hsur (Nat.le_refl i)).
      pose proof (share_base_count_monotone (priority_of a) (priority_of a) total
                    (Z.le_refl _)). lia.
    + exists 1, 1. repeat split; lia.
Qed.

Lemma distribution_follows_priority_witness :
  exists d ca cb,
    distribute_personnel 30 distributor 30 sample_world = Ret (Some d, sample_world) /\
    dict_get d "Chiller Area" = Some ca /\ dict_get d "Store" = Some cb /\ cb <= ca.
Proof.
  apply (distribution_follows_priority 30 30 sample_world 1 5); try lia; reflexivity.
Defined.

(** ** The over-allocation loop on its own *)

Lemma values_setitem_floor (d : dict Z) a v :
  Forall (fun c => 1 <= c) (values d) -> 1 <= v ->
  Forall (fun c => 1 <= c) (values (dict_setitem d a v)).
Proof.
  intros Hd Hv. induction d as [|[k c] d IH]; cbn [dict_setitem].
  - constructor; [exact Hv | constructor].
  - cbn [values map snd] in Hd. apply Forall_cons_iff in Hd as [Hc Hd].
    destruct (String.eqb k a); cbn [values map snd]; constructor; auto.
Qed.

Lemma deficit_sweep_spec order d r w :
  (forall a, In a order -> In a (keys d)) -> ~ In "Supervisors" order -> r <= 0 ->
  Forall (fun c => 1 <= c) (values d) ->
  exists d' taken,
    for_each order deficit_body (d, r) w = Ret ((d', r + taken), w) /\
    0 <= taken <= - r /\
    keys d' = keys d /\
    Forall (fun c => 1 <= c) (values d') /\
    sum (values d') = sum (values d) - taken /\
    dict_get d' "Supervisors" = dict_get d "Supervisors" /\
    (r < 0 -> (exists a, In a order /\ 1 < count_of d a) -> 0 < taken).
Proof.
  revert d r. induction order as [|a order IH]; intros d r Hin Hsup Hr Hfloor.
  - exists d, 0. cbn [for_each]. rewrite Z.add_0_r.
    split; [reflexivity|]. split; [lia|]. split; [reflexivity|]. split; [exact Hfloor|].
    split; [lia|]. split; [reflexivity|]. intros _ (a & [] & _).
  - assert (Ha : In a (keys d)) by (apply Hin; left; reflexivity).
    apply dict_get_keys in Ha as Hget. destruct Hget as [c Hc].
    assert (Hne : a <> "Supervisors") by (intros ->; apply Hsup; left; reflexivity).
    assert (Hsup' : ~ In "Supervisors" order) by (intros H; apply Hsup; right; exact H).
    unfold for_each; fold (@for_each string (dict Z * Z)). unfold bind at 1.
    unfold deficit_body at 1. unfold bind at 1. unfold dict_getitem at 1. rewrite Hc.
    unfold ret at 1.
    destruct (Z.ltb_spec 1 c) as [Hmany | Hone]; destruct (Z.ltb_spec r 0) as [Hneg | Hzero];
      cbn [andb].
    + unfold bind at 1. unfold dict_getitem at 1. rewrite Hc. unfold ret at 1 2.
      destruct (IH (dict_setitem d a (c - 1)) (r + 1))
        as (d' & taken & Hrest & Htaken & Hk & Hfloor' & Hsum & Hskip & _);
        [| exact Hsup' | lia | apply values_setitem_floor; [exact Hfloor | lia] |].
      { intros b Hb. rewrite keys_setitem by exact Ha. apply Hin. right. exact Hb. }
      exists d', (1 + taken). rewrite Hrest.
      split; [f_equal; f_equal; f_equal; lia|]. split; [lia|].
      split; [rewrite Hk; apply keys_setitem; exact Ha|]. split; [exact Hfloor'|].
      split; [rewrite Hsum, (sum_setitem d a c) by exact Hc; lia|].
      split; [|intros; lia].
      rewrite Hskip, dict_get_setitem.
      destruct (String.eqb_spec a "Supervisors"); [contradiction | reflexivity].
    + unfold ret at 1.
      destruct (IH d r) as (d' & taken & Hrest & Htaken & Hk & Hfloor' & Hsum & Hskip & _);
        [intros b Hb; apply Hin; right; exact Hb | exact Hsup' | exact Hr | exact Hfloor |].
      exists d', taken. rewrite Hrest. repeat (split; [assumption || reflexivity|]). intros; lia.
    + unfold ret at 1.
      destruct (IH d r) as (d' & taken & Hrest & Htaken & Hk & Hfloor' & Hsum & Hskip & Hgo);
        [intros b Hb; apply Hin; right; exact Hb | exact Hsup' | exact Hr | exact Hfloor |].
      exists d', taken. rewrite Hrest. repeat (split; [assumption || reflexivity|]).
      intros _ (b & [<- | Hb] & Hcount); [|apply Hgo; [exact Hneg | eauto]].
      unfold count_of, dict_get_default in Hcount. rewrite Hc in Hcount. lia.
    + unfold ret at 1.
      destruct (IH d r) as (d' & taken & Hrest & Htaken & Hk & Hfloor' & Hsum & Hskip & _);
        [intros b Hb; apply Hin; right; exact Hb | exact Hsup' | exact Hr | exact Hfloor |].
      exists d', taken. rewrite Hrest. repeat (split; [assumption || reflexivity|]). intros; lia.
Qed.

Lemma slack_positive areas d :
  0 < slack areas d -> exists a, In a areas /\ 1 < count_of d a.
Proof.
  unfold slack. induction areas as [|a areas IH]; cbn [map]; [unfold sum; cbn; lia|].
  rewrite sum_cons. intros Hpos.
  destruct (Z_lt_le_dec 1 (count_of d a)) as [Hmany | Hone].
  - exists a. split; [left; reflexivity | exact Hmany].
  - destruct IH as (b & Hb & Hcount); [lia|]. exists b. split; [right; exact Hb | exact Hcount].
Qed.

Lemma slack_sum d :
  keys d = all_areas ->
  slack flagman_areas d = sum (values d) - count_of d "Supervisors" - 6.
Proof.
  intros Hk. rewrite values_keys by (rewrite Hk; exact all_areas_distinct).
  assert (Hcount : forall k, In k (keys d) -> dict_get_default d k 0 = count_of d k).
  { intros k Hin. apply dict_get_keys in Hin as [v Hv].
    unfold count_of, dict_get_default. rewrite Hv. reflexivity. }
  rewrite (map_ext_in _ _ _ Hcount), Hk.
  unfold slack, flagman_areas, all_areas. cbn [removelast map]. rewrite !sum_cons.
  unfold sum at 1 2. cbn [fold_left]. lia.
Qed.

(** X9. The over-allocation loop, entered with [- r] workers too many and every
    count at 1 or more, comes to an end when the flagman areas hold that many
    workers above one each: it takes [- r] of them, keeps every count at 1
    or more and leaves the supervisors alone. *)
Theorem deficit_loop_returns (fuel : nat) (d : dict Z) (r : Z) (w : world) :
  keys d = all_areas -> Forall (fun c => 1 <= c) (values d) ->
  r <= 0 -> - r <= slack flagman_areas d -> - r <= Z.of_nat fuel ->
  exists d',
    deficit_loop fuel distributor flagman_areas (d, r) w = Ret ((d', 0), w) /\
    keys d' = all_areas /\
    Forall (fun c => 1 <= c) (values d') /\
    sum (values d') = sum (values d) + r /\
    dict_get d' "Supervisors" = dict_get d "Supervisors".
Proof.
  revert d r. induction fuel as [|fuel IH]; intros d r Hk Hfloor Hr Hslack Hfuel.
  - assert (r = 0) by lia. subst r. exists d.
    split; [reflexivity|]. repeat (split; [assumption || lia|]). reflexivity.
  - cbn [deficit_loop snd]. destruct (Z.ltb_spec r 0) as [Hneg | Hzero].
    + unfold bind at 1. rewrite by_priority_ascending.
      set (order := ["Store"; "Gate"; "NCC Office"; "SSD"; "Chiller Area"; "GIS + MB"]).
      destruct (deficit_sweep_spec order d r w)
        as (d1 & taken & Hsweep & Htaken & Hk1 & Hfloor1 & Hsum1 & Hsup1 & Hgo);
        [| cbn; intuition discriminate | exact Hr | exact Hfloor |].
      { intros a Ha. rewrite Hk. unfold order, all_areas in *. cbn [In] in *.
        intuition (subst; auto). }
      assert (Hpos : 0 < taken).
      { apply Hgo; [exact Hneg|].
        destruct (slack_positive flagman_areas d) as (a & Ha & Hcount); [lia|].
        exists a. split; [|exact Hcount].
        unfold order, flagman_areas, all_areas in *. cbn [removelast In] in *.
        intuition (subst; auto). }
      unfold bind. rewrite Hsweep.
      assert (Hk1' : keys d1 = all_areas) by congruence.
      destruct (IH d1 (r + taken) Hk1' Hfloor1) as (d2 & Hloop & Hk2 & Hfloor2 & Hsum2 & Hsup2);
        [lia | | lia |].
      { rewrite (slack_sum d1 Hk1'). rewrite (slack_sum d Hk) in Hslack.
        unfold count_of, dict_get_default in *. rewrite Hsup1. lia. }
      exists d2. split; [exact Hloop|]. split; [exact Hk2|]. split; [exact Hfloor2|].
      split; [lia | congruence].
    + assert (r = 0) by lia. subst r. exists d.
      split; [reflexivity|]. repeat (split; [assumption || lia|]). reflexivity.
Qed.

Lemma deficit_loop_returns_witness :
  exists d',
    deficit_loop 3 distributor flagman_areas
      ([("GIS + MB", 2); ("Chiller Area", 1); ("SSD", 1); ("Gate", 3);
        ("NCC Office", 1); ("Store", 2); ("Supervisors", 1)], -3) sample_world
    = Ret ((d', 0), sample_world) /\
    keys d' = all_areas /\
    Forall (fun c => 1 <= c) (values d') /\
    sum (values d')
    = sum (values [("GIS + MB", 2); ("Chiller Area", 1); ("SSD", 1); ("Gate", 3);
                   ("NCC Office", 1); ("Store", 2); ("Supervisors", 1)]) + -3 /\
    dict_get d' "Supervisors"
    = dict_get [("GIS + MB", 2); ("Chiller Area", 1); ("SSD", 1); ("Gate", 3);
                ("NCC Office", 1); ("Store", 2); ("Supervisors", 1)] "Supervisors".
Proof.
  apply (deficit_loop_returns 3
           [("GIS + MB", 2); ("Chiller Area", 1); ("SSD", 1); ("Gate", 3);
            ("NCC Office", 1); ("Store", 2); ("Supervisors", 1)] (-3) sample_world).
  - reflexivity.
  - cbn [values map snd]. repeat (apply Forall_cons; [lia|]). apply Forall_nil.
  - lia.
  - vm_compute. discriminate.
  - lia.
Defined.

Lemma count_of_floor d a : Forall (fun c => 1 <= c) (values d) -> 1 <= count_of d a.
Proof.
  intros Hfloor. unfold count_of, dict_get_default.
  destruct (dict_get d a) as [v|] eqn:Hv; [|lia].
  rewrite Forall_forall in Hfloor. apply Hfloor. eapply dict_get_values. exact Hv.
Qed.

Lemma slack_nonneg areas d : Forall (fun c => 1 <= c) (values d) -> 0 <= slack areas d.
Proof.
  intros Hfloor. unfold slack. induction areas as [|a areas IH]; cbn [map].
  - unfold sum. cbn. lia.
  - rewrite sum_cons. pose proof (count_of_floor d a Hfloor). lia.
Qed.

(** X10. With fewer workers above one each than it has to take, the loop never
    comes to an end: no fuel is enough. *)
Theorem deficit_loop_diverges (fuel : nat) (d : dict Z) (r : Z) (w : world) :
  keys d = all_areas -> Forall (fun c => 1 <= c) (values d) ->
  r <= 0 -> slack flagman_areas d < - r ->
  deficit_loop fuel distributor flagman_areas (d, r) w = OutOfFuel.
Proof.
  revert d r. induction fuel as [|fuel IH]; intros d r Hk Hfloor Hr Hslack;
    pose proof (slack_nonneg flagman_areas d Hfloor) as Hs;
    cbn [deficit_loop snd]; destruct (Z.ltb_spec r 0) as [Hneg | Hzero]; try lia.
  - reflexivity.
  - unfold bind at 1. rewrite by_priority_ascending.
    set (order := ["Store"; "Gate"; "NCC Office"; "SSD"; "Chiller Area"; "GIS + MB"]).
    destruct (deficit_sweep_spec order d r w)
      as (d1 & taken & Hsweep & Htaken & Hk1 & Hfloor1 & Hsum1 & Hsup1 & _);
      [| cbn; intuition discriminate | exact Hr | exact Hfloor |].
    { intros a Ha. rewrite Hk. unfold order, all_areas in *. cbn [In] in *.
      intuition (subst; auto). }
    unfold bind. rewrite Hsweep.
    assert (Hk1' : keys d1 = all_areas) by congruence.
    apply IH; [exact Hk1' | exact Hfloor1 | lia |].
    rewrite (slack_sum d1 Hk1'). rewrite (slack_sum d Hk) in Hslack.
    unfold count_of, dict_get_default in *. rewrite Hsup1. lia.
Qed.


Lemma deficit_loop_diverges_witness :
  deficit_loop 5 distributor flagman_areas
    ([("GIS + MB", 1); ("Chiller Area", 1); ("SSD", 1); ("Gate", 1);
      ("NCC Office", 1); ("Store", 2); ("Supervisors", 1)], -2) sample_world
  = OutOfFuel.
Proof.
  apply (deficit_loop_diverges 5
           [("GIS + MB", 1); ("Chiller Area", 1); ("SSD", 1); ("Gate", 1);
            ("NCC Office", 1); ("Store", 2); ("Supervisors", 1)] (-2) sample_world).
  - reflexivity.
  - cbn [values map snd]. repeat (apply Forall_cons; [lia|]). apply Forall_nil.
  - lia.
  - vm_compute. reflexivity.
Defined.

(** ** Any priority table *)

Lemma bind_inv {A B} (m : py A) (k : A -> py B) w b w' :
  bind m k w = Ret (b, w') -> exists a w1, m w = Ret (a, w1) /\ k a w1 = Ret (b, w').
Proof.
  unfold bind. destruct (m w) as [[a w1] | e |]; try discriminate.
  intros H. exists a, w1. split; [reflexivity | exact H].
Qed.

Lemma for_each_inv {A S} (P : S -> Prop) (l : list A) (body : A -> S -> py S) :
  (forall x s w s' w', In x l -> P s -> body x s w = Ret (s', w') -> P s') ->
  forall s w s' w', P s -> for_each l body s w = Ret (s', w') -> P s'.
Proof.
  induction l as [|x l IH]; intros Hbody s w s' w' Hs Hrun; cbn [for_each] in Hrun.
  - injection Hrun as <- _. exact Hs.
  - apply bind_inv in Hrun as (s1 & w1 & Hstep & Hrest).
    apply (IH (fun y t u t' u' Hy => Hbody y t u t' u' (or_intror Hy)) s1 w1 s' w');
      [|exact Hrest].
    eapply Hbody; [left; reflexivity | exact Hs | exact Hstep].
Qed.

Lemma base_count_floor priority total_priority total w c w' :
  base_count priority total_priority total w = Ret (c, w') -> 1 <= c.
Proof.
  unfold base_count. intros H.
  apply bind_inv in H as (q & w1 & _ & H). apply bind_inv in H as (x & w2 & _ & H).
  apply bind_inv in H as (t & w3 & _ & H). injection H as <- _. lia.
Qed.

Lemma values_floor_app (l l' : list Z) :
  Forall (fun c => 1 <= c) l -> Forall (fun c => 1 <= c) l' ->
  Forall (fun c => 1 <= c) (l ++ l').
Proof. intros H H'. apply Forall_app. split; assumption. Qed.

Lemma first_pass_any total_priority total table d a w d' a' w' :
  NoDup (map fst table) ->
  (forall k, In k (keys d) -> ~ In k (map fst table)) ->
  ~ In "Supervisors" (keys d) ->
  sum (values d) = a -> Forall (fun c => 1 <= c) (values d) ->
  for_each table (first_pass_body total_priority total) (d, a) w = Ret ((d', a'), w') ->
  sum (values d') = a' /\ Forall (fun c => 1 <= c) (values d') /\
  ~ In "Supervisors" (keys d') /\
  (forall k, In k (keys d) \/ In k (map fst table) /\ k <> "Supervisors" -> In k (keys d')).
Proof.
  revert d a w. induction table as [|[area priority] table IH];
    intros d a w Hnd Hfresh Hsup Hsum Hfloor Hrun; cbn [for_each] in Hrun.
  - injection Hrun as <- <- _. repeat (split; [assumption|]).
    intros k [Hk | [[] _]]. exact Hk.
  - cbn [map fst] in Hnd. apply NoDup_cons_iff in Hnd as [Harea Hnd].
    apply bind_inv in Hrun as ([d1 a1] & w1 & Hstep & Hrest).
    unfold first_pass_body in Hstep.
    destruct (String.eqb_spec area "Supervisors") as [-> | Hne].
    + injection Hstep as <- <- _.
      destruct (IH d a w1 Hnd) as (H1 & H2 & H3 & H4); try assumption.
      { intros k Hk Hin. apply (Hfresh k Hk). right. exact Hin. }
      repeat (split; [assumption|]).
      intros k [Hk | [[<- | Hk] Hne]]; [apply H4; left; exact Hk | contradiction |].
      apply H4. right. split; assumption.
    + apply bind_inv in Hstep as (c & w2 & Hc & Hstep). injection Hstep as <- <- _.
      apply base_count_floor in Hc.
      assert (Hnew : ~ In area (keys d)).
      { intros Hin. apply (Hfresh area Hin). left. reflexivity. }
      destruct (IH (dict_setitem d area c) (a + c) w1 Hnd) as (H1 & H2 & H3 & H4);
        try exact Hrest.
      { intros k Hk Hin. rewrite keys_setitem_new in Hk by exact Hnew.
        apply in_app_or in Hk as [Hk | [<- | []]]; [|contradiction].
        apply (Hfresh k Hk). right. exact Hin. }
      { rewrite keys_setitem_new by exact Hnew. intros Hin.
        apply in_app_or in Hin as [Hin | [Heq | []]]; [contradiction | congruence]. }
      { rewrite values_setitem_new, sum_app by exact Hnew. unfold sum at 2. cbn. lia. }
      { rewrite values_setitem_new by exact Hnew. apply values_floor_app; [exact Hfloor|].
        constructor; [exact Hc | constructor]. }
      repeat (split; [assumption|]).
      intros k Hk. apply H4.
      rewrite keys_setitem_new by exact Hnew.
      destruct Hk as [Hk | [[<- | Hk] Hk']].
      * left. apply in_or_app. left. exact Hk.
      * left. apply in_or_app. right. left. reflexivity.
      * right. split; assumption.
Qed.

Lemma in_insert_keyed {A} reverse (x y : Z * A) l :
  In y (insert_keyed reverse x l) -> y = x \/ In y l.
Proof.
  induction l as [|z l IH]; cbn [insert_keyed].
  - intros [<- | []]. left. reflexivity.
  - destruct (if reverse then fst x <? fst z else fst z <? fst x).
    + intros [<- | H]; [right; left; reflexivity|].
      destruct (IH H) as [-> | H']; [left; reflexivity | right; right; exact H'].
    + intros [<- | H]; [left; reflexivity | right; exact H].
Qed.

Lemma in_sort_keyed {A} reverse (y : Z * A) l : In y (sort_keyed reverse l) -> In y l.
Proof.
  unfold sort_keyed. induction l as [|x l IH]; cbn [fold_right]; [tauto|].
  intros H. apply in_insert_keyed in H as [-> | H]; [left; reflexivity | right; auto].
Qed.

Lemma map_py_keyed_in {A} (key : A -> py Z) l w ks w' k x :
  map_py (fun y => k' <- key y ;; ret (k', y)) l w = Ret (ks, w') ->
  In (k, x) ks -> In x l.
Proof.
  revert ks w w'. induction l as [|b l IH]; intros ks w w' Hks Hin; cbn [map_py] in Hks.
  - injection Hks as <- _. contradiction.
  - apply bind_inv in Hks as ([k0 x0] & w2 & Hhead & Hks).
    apply bind_inv in Hhead as (k1 & w3 & _ & Hhead). injection Hhead as <- <- _.
    apply bind_inv in Hks as (ys & w4 & Hys & Hks). injection Hks as <- _.
    destruct Hin as [[= _ <-] | Hin]; [left; reflexivity | right].
    exact (IH ys w2 w4 Hys Hin).
Qed.

Lemma by_priority_in self areas reverse w order w' a :
  by_priority self areas reverse w = Ret (order, w') -> In a order -> In a areas.
Proof.
  unfold by_priority, sorted. intros H Hin.
  apply bind_inv in H as (ks & w1 & Hks & H). injection H as <- _.
  apply in_map_iff in Hin as ([k x] & <- & Hin). apply in_sort_keyed in Hin.
  cbn [snd]. eapply map_py_keyed_in; eassumption.
Qed.

Lemma surplus_body_balanced total areas area st w st' w' :
  In area areas -> balanced total areas st /\ 0 <= snd st ->
  surplus_body area st w = Ret (st', w') ->
  balanced total areas st' /\ 0 <= snd st'.
Proof.
  destruct st as [d r]. intros Harea [(Hsum & Hfloor & Hkeys & Hsup) Hr] Hrun.
  cbn [fst snd] in *. unfold surplus_body in Hrun.
  destruct (Z.ltb_spec 0 r) as [Hpos | Hzero].
  - apply bind_inv in Hrun as (c & w1 & Hc & Hrun). injection Hrun as <- _.
    unfold dict_getitem in Hc. destruct (dict_get d area) as [c0|] eqn:Hget; [|discriminate].
    injection Hc as -> _.
    assert (Hin : In area (keys d)) by (apply dict_get_keys; eauto).
    assert (1 <= c).
    { rewrite Forall_forall in Hfloor. apply Hfloor. eapply dict_get_values. exact Hget. }
    unfold balanced. cbn [fst snd]. rewrite (sum_setitem d area c) by exact Hget.
    rewrite keys_setitem by exact Hin.
    split; [|lia]. split; [lia|]. split; [apply values_setitem_floor; [exact Hfloor | lia]|].
    split; [exact Hkeys|]. intros Hout. rewrite dict_get_setitem.
    destruct (String.eqb_spec area "Supervisors") as [-> | _]; [contradiction | auto].
  - injection Hrun as <- _. cbn [snd]. split; [split; auto | exact Hr].
Qed.

Lemma deficit_body_balanced total areas area st w st' w' :
  In area areas -> balanced total areas st /\ snd st <= 0 ->
  deficit_body area st w = Ret (st', w') ->
  balanced total areas st' /\ snd st' <= 0.
Proof.
  destruct st as [d r]. intros Harea [(Hsum & Hfloor & Hkeys & Hsup) Hr] Hrun.
  cbn [fst snd] in *. unfold deficit_body in Hrun.
  apply bind_inv in Hrun as (c & w1 & Hc & Hrun).
  unfold dict_getitem in Hc. destruct (dict_get d area) as [c0|] eqn:Hget; [|discriminate].
  injection Hc as -> <-.
  destruct (Z.ltb_spec 1 c) as [Hmany | Hone]; destruct (Z.ltb_spec r 0) as [Hneg | Hzero];
    cbn [andb] in Hrun;
    try (injection Hrun as <- _; cbn [snd]; split; [split; auto | exact Hr]).
  apply bind_inv in Hrun as (c' & w2 & Hc' & Hrun). injection Hrun as <- _.
  unfold dict_getitem in Hc'. rewrite Hget in Hc'. injection Hc' as <- _.
  assert (Hin : In area (keys d)) by (apply dict_get_keys; eauto).
  unfold balanced. cbn [fst snd]. rewrite (sum_setitem d area c) by exact Hget.
  rewrite keys_setitem by exact Hin.
  split; [|lia]. split; [lia|]. split; [apply values_setitem_floor; [exact Hfloor | lia]|].
  split; [exact Hkeys|]. intros Hout. rewrite dict_get_setitem.
  destruct (String.eqb_spec area "Supervisors") as [-> | _]; [contradiction | auto].
Qed.

Lemma surplus_loop_balanced fuel self total areas st w st' w' :
  balanced total areas st -> 0 <= snd st ->
  surplus_loop fuel self areas st w = Ret (st', w') ->
  balanced total areas st' /\ snd st' = 0.
Proof.
  revert st w. induction fuel as [|fuel IH]; intros st w Hbal Hr Hrun;
    cbn [surplus_loop] in Hrun; destruct (Z.ltb_spec 0 (snd st)) as [Hpos | Hzero];
    try discriminate; try (injection Hrun as <- _; split; [exact Hbal | lia]).
  apply bind_inv in Hrun as (order & w1 & Horder & Hrun).
  apply bind_inv in Hrun as (st1 & w2 & Hsweep & Hrun).
  assert (H1 : balanced total areas st1 /\ 0 <= snd st1).
  { apply (for_each_inv (fun s => balanced total areas s /\ 0 <= snd s) order surplus_body)
      with (s := st) (w := w1) (w' := w2); [| split; assumption | exact Hsweep].
    intros x s u s' u' Hx Hs Hbody.
    eapply surplus_body_balanced; [| exact Hs | exact Hbody].
    eapply by_priority_in; eassumption. }
  destruct H1 as [Hbal1 Hr1]. exact (IH st1 w2 Hbal1 Hr1 Hrun).
Qed.

Lemma deficit_loop_balanced fuel self total areas st w st' w' :
  balanced total areas st -> snd st <= 0 ->
  deficit_loop fuel self areas st w = Ret (st', w') ->
  balanced total areas st' /\ snd st' = 0.
Proof.
  revert st w. induction fuel as [|fuel IH]; intros st w Hbal Hr Hrun;
    cbn [deficit_loop] in Hrun; destruct (Z.ltb_spec (snd st) 0) as [Hneg | Hzero];
    try discriminate; try (injection Hrun as <- _; split; [exact Hbal | lia]).
  apply bind_inv in Hrun as (order & w1 & Horder & Hrun).
  apply bind_inv in Hrun as (st1 & w2 & Hsweep & Hrun).
  assert (H1 : balanced total areas st1 /\ snd st1 <= 0).
  { apply (for_each_inv (fun s => balanced total areas s /\ snd s <= 0) order deficit_body)
      with (s := st) (w := w1) (w' := w2); [| split; assumption | exact Hsweep].
    intros x s u s' u' Hx Hs Hbody.
    eapply deficit_body_balanced; [| exact Hs | exact Hbody].
    eapply by_priority_in; eassumption. }
  destruct H1 as [Hbal1 Hr1]. exact (IH st1 w2 Hbal1 Hr1 Hrun).
Qed.

Lemma in_removelast {A} (x : A) l : In x (removelast l) -> In x l.
Proof.
  induction l as [|y l IH]; cbn [removelast]; [tauto|].
  destruct l as [|z l]; [intros [] |]. intros [<- | H]; [left; reflexivity | right; auto].
Qed.

(** X11. Whatever the priority table, a distribution that
    [distribute_personnel] returns adds up to [total] and gives no area less
    than one worker; the supervisors have exactly one when they are not among
    the areas of the reconciliation, that is when their entry is the last of
    the table or is missing. The world is left as it was. *)
Theorem distribute_personnel_any_table
    (self : FlagmanDistributor) (total : Z) (fuel : nat) (w w' : world) (d : dict Z) :
  NoDup (keys (area_priorities self)) ->
  distribute_personnel fuel self total w = Ret (Some d, w') ->
  sum (values d) = total /\
  Forall (fun c => 1 <= c) (values d) /\
  (~ In "Supervisors" (removelast (keys (area_priorities self))) ->
   dict_get d "Supervisors" = Some 1) /\
  w' = w.
Proof.
  intros Hnd Hrun.
  assert (Hw : w' = w).
  { eapply pure_returns; [apply pure_distribute_personnel | exact Hrun]. }
  unfold distribute_personnel in Hrun.
  destruct (total <? 7); [discriminate|].
  apply bind_inv in Hrun as ([areas st] & w1 & Halloc & Hrun).
  apply bind_inv in Hrun as ([d' r'] & w2 & Hdeficit & Hrun). injection Hrun as <- _.
  unfold allocate_and_top_up in Halloc.
  apply bind_inv in Halloc as ([d0 a0] & w3 & Hfirst & Halloc).
  apply bind_inv in Halloc as (st1 & w4 & Hsurplus & Halloc). injection Halloc as <- <- _.
  set (areas := removelast (keys (area_priorities self))) in *.
  destruct (first_pass_any (sum (values (area_priorities self))) total
              (items (area_priorities self)) [] 0 w d0 a0 w3 Hnd)
    as (Hsum0 & Hfloor0 & Hsup0 & Hkeys0);
    [intros k [] | intros [] | reflexivity | constructor | exact Hfirst |].
  assert (Hbal : balanced total areas
                   (dict_setitem d0 "Supervisors" 1, total - (a0 + 1))).
  { unfold balanced. cbn [fst snd].
    rewrite values_setitem_new, keys_setitem_new, sum_app by exact Hsup0.
    split; [unfold sum at 2; cbn; lia|].
    split; [apply values_floor_app; [exact Hfloor0 | constructor; [lia | constructor]]|].
    split.
    - intros a Ha. apply in_removelast in Ha. apply in_or_app.
      destruct (String.eqb_spec a "Supervisors") as [-> | Hne];
        [right; left; reflexivity | left; apply Hkeys0; right; split; assumption].
    - intros _. rewrite dict_get_setitem. reflexivity. }
  assert (Hst1 : balanced total areas st1 /\ snd st1 <= 0).
  { destruct (Z_lt_le_dec (total - (a0 + 1)) 0) as [Hneg | Hpos].
    - destruct fuel; cbn [surplus_loop snd] in Hsurplus;
        (destruct (Z.ltb_spec 0 (total - (a0 + 1))); [lia|]);
        injection Hsurplus as <- _; (split; [exact Hbal | cbn [snd]; lia]).
    - destruct (surplus_loop_balanced _ _ _ _ _ _ _ _ Hbal Hpos Hsurplus) as [H1 H2].
      split; [exact H1 | lia]. }
  destruct Hst1 as [Hbal1 Hr1].
  destruct (deficit_loop_balanced _ _ _ _ _ _ _ _ Hbal1 Hr1 Hdeficit)
    as [(Hsum & Hfloor & _ & Hsup) Hzero].
  cbn [fst snd] in *. split; [lia|]. split; [exact Hfloor|]. split; [exact Hsup | exact Hw].
Qed.

Lemma distribute_personnel_any_table_witness :
  sum (values [("Yard", 5); ("Dock", 4); ("Supervisors", 1)]) = 10 /\
  Forall (fun c => 1 <= c) (values [("Yard", 5); ("Dock", 4); ("Supervisors", 1)]) /\
  (~ In "Supervisors"
       (removelast (keys (area_priorities
          {| equipment_pools := []; area_priorities := [("Yard", 3); ("Dock", 3)] |}))) ->
   dict_get [("Yard", 5); ("Dock", 4); ("Supervisors", 1)] "Supervisors" = Some 1) /\
  sample_world = sample_world.
Proof.
  apply (distribute_personnel_any_table
           {| equipment_pools := []; area_priorities := [("Yard", 3); ("Dock", 3)] |}
           10 10 sample_world sample_world).
  - cbn. repeat (constructor; [cbn; intuition discriminate|]). constructor.
  - vm_compute. reflexivity.
Defined.
